(** * Geogrid calculation service: grid generation and scan statistics

    Shallow embedding of [backend/app/services/geogrid.py].

    Python values are modelled as follows.
    - [int] is [Z] (unbounded, as in Python).
    - [float] is a rational number [Q] that belongs to the floating-point
      format; every float operation is the exact rational operation followed
      by the rounding [rnd] of the format (the IEEE 754 model of a correctly
      rounded operation).  The format is a parameter ([PyFloat]) constrained
      by the laws that binary64 round-to-nearest satisfies on finite values:
      [rnd] picks a nearest representable value, integers up to [2^53] are
      representable, and the relative error is at most [2^-53] above the
      smallest normal number.  NaN and overflow are outside the model;
      an infinity is modelled where it changes what is raised: the center
      latitude of [generate_geogrid_ext].
    - A value that is an [int] on one path and a [float] on another is a
      [num]; [value] is the number it denotes.
    - [Optional[int]] is [option Z].
    - An exception is a value of [exn]; a function that can raise returns a
      [result]. *)

From Stdlib Require Import ZArith QArith Qround Qabs Lqa Lia.
From Stdlib Require Import List String DecimalString Bool Morphisms Setoid.
From Stdlib Require Import Permutation Ascii.
Import ListNotations.

(** ** Exceptions *)

Inductive exn : Type :=
| ValueError (msg : string)
| ZeroDivisionError.

Inductive result (A : Type) : Type :=
| Ok (a : A)
| Raise (e : exn).

Arguments Ok {A} a.
Arguments Raise {A} e.

Definition bind {A B : Type} (m : result A) (k : A -> result B) : result B :=
  match m with
  | Ok a => k a
  | Raise e => Raise e
  end.

Notation "x <- m ;; k" := (bind m (fun x => k))
  (at level 61, m at next level, right associativity).

(** ** Python runtime: floats, [round], [range], [str] *)

(** Smallest positive normal binary64 number, [2^-1022]. *)
Definition min_normal : Q := 1 # (2 ^ 1022).

(** Unit roundoff of binary64, [2^-53]. *)
Definition unit_roundoff : Q := 1 # (2 ^ 53).

Class PyFloat : Type := {
  (** rounding of an exact result to the format *)
  rnd : Q -> Q;
  rnd_compat : forall x y, x == y -> rnd x == rnd y;
  rnd_nearest : forall x y, rnd y == y -> Qabs (rnd x - x) <= Qabs (y - x);
  rnd_int : forall z : Z, (Z.abs z <= 2 ^ 53)%Z -> rnd (inject_Z z) == inject_Z z;
  rnd_rel : forall x, min_normal <= Qabs x ->
                      Qabs (rnd x - x) <= unit_roundoff * Qabs x;
  (** [math.cos] of the C library; its result is a float *)
  math_cos : Q -> Q;
  math_cos_float : forall x, rnd (math_cos x) == math_cos x
}.

Definition Qltb (x y : Q) : bool := negb (Qle_bool y x).

(** Round half to even of a rational to an integer. *)
Definition round_half_even (x : Q) : Z :=
  let f := Qfloor x in
  let r := x - inject_Z f in
  if Qltb r (1 # 2) then f
  else if Qltb (1 # 2) r then (f + 1)%Z
  else if Z.even f then f else (f + 1)%Z.

Definition pow10 (ndigits : Z) : Q := inject_Z (10 ^ ndigits).

(** A Python number: an [int] or a [float]. *)
Inductive num : Type :=
| Int (z : Z)
| Float (q : Q).

Definition value (n : num) : Q :=
  match n with
  | Int z => inject_Z z
  | Float q => q
  end.

Section Runtime.
Context {PF : PyFloat}.

(** [float(z)] *)
Definition of_int (z : Z) : Q := rnd (inject_Z z).

Definition fadd (x y : Q) : Q := rnd (x + y).
Definition fsub (x y : Q) : Q := rnd (x - y).
Definition fmul (x y : Q) : Q := rnd (x * y).

(** [x / y] on floats *)
Definition truediv (x y : Q) : result Q :=
  if Qeq_bool y 0 then Raise ZeroDivisionError else Ok (rnd (x / y)).

(** [a / b] on ints: the correctly rounded quotient *)
Definition int_truediv (a b : Z) : result Q :=
  if (b =? 0)%Z then Raise ZeroDivisionError
  else Ok (rnd (inject_Z a / inject_Z b)).

(** [round(x, ndigits)] on a float, [ndigits >= 0]: the float nearest to
    the decimal with [ndigits] places nearest to [x], ties to even. *)
Definition round_ndigits (x : Q) (ndigits : Z) : Q :=
  rnd (inject_Z (round_half_even (x * pow10 ndigits)) / pow10 ndigits).

(** [math.radians(x)] is [x * degToRad], [degToRad = Py_MATH_PI / 180.0]. *)
Definition Py_MATH_PI : Q := rnd (314159265358979323846 # 100000000000000000000).
Definition degToRad : Q := rnd (Py_MATH_PI / inject_Z 180).
Definition math_radians (x : Q) : Q := fmul x degToRad.

(** [round(v, ndigits)], [ndigits >= 0]: an [int] is returned unchanged. *)
Definition py_round (v : num) (ndigits : Z) : num :=
  match v with
  | Int z => Int z
  | Float q => Float (round_ndigits q ndigits)
  end.
End Runtime.

(** [min(a, b)] and [max(a, b)] of two arguments: the first one wins ties. *)
Definition py_min (a b : num) : num := if Qltb (value b) (value a) then b else a.
Definition py_max (a b : num) : num := if Qltb (value a) (value b) then b else a.

(** [range(n)] *)
Definition range (n : Z) : list Z := map Z.of_nat (seq 0 (Z.to_nat n)).

(** [str(z)] *)
Definition str (z : Z) : string := NilZero.string_of_int (Z.to_int z).

(** [for x in xs: body], the loop state threaded through [body]. *)
Fixpoint for_in {A S : Type} (xs : list A) (body : A -> S -> result S) (s : S)
  : result S :=
  match xs with
  | [] => Ok s
  | x :: xs' => s' <- body x s ;; for_in xs' body s'
  end.

(** ** Grid generator *)

Record GridPoint : Type := mkGridPoint {
  x : Z;
  y : Z;
  latitude : Q;
  longitude : Q;
  label : string
}.

Section Geogrid.
Context {PF : PyFloat}.

Definition generate_geogrid (center_lat center_lng radius_km : Q) (grid_size : Z)
  : result (list GridPoint) :=
  if negb (existsb (Z.eqb grid_size) [3; 5; 7]%Z) then
    Raise (ValueError "Grid size must be 3, 5, or 7")
  else if Qle_bool radius_km 0 then
    Raise (ValueError "Radius must be positive")
  else if Qltb (inject_Z 50) radius_km then
    Raise (ValueError "Radius must not exceed 50km for accurate calculations")
  else
    step_distance_m <-
      truediv (fmul radius_km (of_int 2000)) (of_int (grid_size - 1)) ;;
    half_size <- int_truediv (grid_size - 1) 2 ;;
    let METERS_PER_LAT_DEGREE := 111111%Z in
    let meters_per_lng_degree :=
      fmul (of_int METERS_PER_LAT_DEGREE) (math_cos (math_radians center_lat)) in
    for_in (range grid_size) (fun row points =>
      for_in (range grid_size) (fun col points =>
        let offset_lat_m := fmul (fsub half_size (of_int row)) step_distance_m in
        let offset_lng_m := fmul (fsub (of_int col) half_size) step_distance_m in
        delta_lat <- truediv offset_lat_m (of_int METERS_PER_LAT_DEGREE) ;;
        delta_lng <- truediv offset_lng_m meters_per_lng_degree ;;
        let new_lat := fadd center_lat delta_lat in
        let new_lng := fadd center_lng delta_lng in
        Ok (points ++
            [ {| x := col;
                 y := row;
                 latitude := round_ndigits new_lat 6;
                 longitude := round_ndigits new_lng 6;
                 label := "Ponto_" ++ str row ++ "_" ++ str col |} ]))
        points)
      [].

Definition estimate_credits (grid_size : Z) : result Z :=
  if negb (existsb (Z.eqb grid_size) [3; 5; 7]%Z) then
    Raise (ValueError "Grid size must be 3, 5, or 7")
  else Ok (grid_size * grid_size)%Z.

(** ** Stats aggregator *)

Definition calculate_visibility_score (ranks : list (option Z)) (grid_size : Z)
  : result num :=
  let total_points := (grid_size * grid_size)%Z in
  let max_score := (total_points * 20)%Z in
  let rank_sum :=
    fold_left Z.add
      (map (fun rank => match rank with Some r => r | None => 20%Z end) ranks)
      0%Z in
  q <- int_truediv (max_score - rank_sum) (max_score - total_points) ;;
  let score := fmul q (of_int 100) in
  Ok (py_round (py_max (Int 0) (py_min (Int 100) (Float score))) 2).

Definition calculate_average_rank (ranks : list (option Z)) : result (option Q) :=
  let valid_ranks :=
    flat_map (fun r => match r with Some v => [v] | None => [] end) ranks in
  match valid_ranks with
  | [] => Ok None
  | _ =>
      m <- int_truediv (fold_left Z.add valid_ranks 0%Z)
                       (Z.of_nat (List.length valid_ranks)) ;;
      Ok (Some (round_ndigits m 2))
  end.

Inductive color : Type := red | green | yellow.

Definition get_rank_color (rank : option Z) : color :=
  match rank with
  | None => red
  | Some r =>
      if (10 <? r)%Z then red
      else if (r <=? 3)%Z then green
      else yellow
  end.

Definition count_top3 (ranks : list (option Z)) : Z :=
  Z.of_nat (List.length (filter
    (fun r => match r with Some v => (v <=? 3)%Z | None => false end) ranks)).

Definition count_top10 (ranks : list (option Z)) : Z :=
  Z.of_nat (List.length (filter
    (fun r => match r with Some v => (v <=? 10)%Z | None => false end) ranks)).

Record ScanStats : Type := mkScanStats {
  arp : option Q;
  top3 : Z;
  top10 : Z;
  visibility_score : num;
  total_points : Z
}.

Definition calculate_scan_stats (ranks : list (option Z)) (grid_size : Z)
  : result ScanStats :=
  a <- calculate_average_rank ranks ;;
  let t3 := count_top3 ranks in
  let t10 := count_top10 ranks in
  v <- calculate_visibility_score ranks grid_size ;;
  Ok {| arp := a;
        top3 := t3;
        top10 := t10;
        visibility_score := v;
        total_points := (grid_size * grid_size)%Z |}.
End Geogrid.

(** ** The grid generator on an infinite center latitude

    [center_lat] is a float and is not validated: it may be an infinity, on
    which [math.cos] raises [ValueError("math domain error")]
    ([math.radians] of an infinity is that infinity).  [generate_geogrid_ext]
    is [generate_geogrid] with that argument: the three checks come first,
    as in the source, then the cosine. *)

Inductive xfloat : Type :=
| Finite (q : Q)
| Infinity (negative : bool).

Section GeogridExt.
Context {PF : PyFloat}.

Definition generate_geogrid_ext (center_lat : xfloat) (center_lng radius_km : Q)
    (grid_size : Z) : result (list GridPoint) :=
  if negb (existsb (Z.eqb grid_size) [3; 5; 7]%Z) then
    Raise (ValueError "Grid size must be 3, 5, or 7")
  else if Qle_bool radius_km 0 then
    Raise (ValueError "Radius must be positive")
  else if Qltb (inject_Z 50) radius_km then
    Raise (ValueError "Radius must not exceed 50km for accurate calculations")
  else
    match center_lat with
    | Finite q => generate_geogrid q center_lng radius_km grid_size
    | Infinity _ => Raise (ValueError "math domain error")
    end.
End GeogridExt.

(** ** Heatmap colours: [services/heatmap.py] *)

Definition get_rank_color_hex (rank : option Z) : string :=
  match rank with
  | None => "#ef4444"
  | Some r =>
      if (10 <? r)%Z then "#ef4444"
      else if (r <=? 3)%Z then "#22c55e"
      else "#eab308"
  end.

(** ** SERP results: [services/serp.py] *)

(** A value decoded from a JSON response; a [dict] keeps its items as an
    association list, looked up by key. *)
#[warnings="-register-all"]
Inductive json : Type :=
| JNull
| JBool (b : bool)
| JInt (z : Z)
| JFloat (q : Q)
| JStr (s : string)
| JList (items : list json)
| JDict (fields : list (string * json)).

Definition dict : Type := list (string * json).

(** [d.get(key, default)] *)
Fixpoint dict_get (d : dict) (key : string) (default : json) : json :=
  match d with
  | [] => default
  | (k, v) :: rest => if (k =? key)%string then v else dict_get rest key default
  end.

(** [needle in haystack] on strings: [needle] occurs at some offset. *)
Fixpoint str_in (needle haystack : string) : bool :=
  if String.prefix needle haystack then true
  else match haystack with
       | EmptyString => false
       | String _ rest => str_in needle rest
       end.

(** The outcome of code whose only exception is the [AttributeError] of
    calling [.lower()] on a value that is not a [str]. *)
Inductive attempt (A : Type) : Type :=
| Returned (a : A)
| AttributeError.

Arguments Returned {A} a.
Arguments AttributeError {A}.

(** The coordinate fields are [latitude] and [longitude] in the source; the
    prefix tells them from the fields of [GridPoint]. *)
Record RankResult : Type := mkRankResult {
  grid_x : Z;
  grid_y : Z;
  rr_latitude : Q;
  rr_longitude : Q;
  rank_position : option Z;
  serp_data : option dict
}.

Definition extract_ranks_from_results (results : list RankResult) : list (option Z) :=
  map rank_position results.

Section Serp.
(** [str.lower] of the Python runtime. *)
Variable str_lower : string -> string.

(** [v.lower()] *)
Definition lower (v : json) : attempt string :=
  match v with
  | JStr s => Returned (str_lower s)
  | _ => AttributeError
  end.

(** One iteration's test of [_find_business_in_results]: both fields are
    lowered before the test. *)
Definition item_matches (business_lower : string) (item : dict) : attempt bool :=
  match lower (dict_get item "title" (JStr "")) with
  | AttributeError => AttributeError
  | Returned title =>
      match lower (dict_get item "name" (JStr "")) with
      | AttributeError => AttributeError
      | Returned name =>
          Returned (str_in business_lower title || str_in business_lower name)
      end
  end.

(** The loop [for idx, result in enumerate(results)], from index [idx]. *)
Fixpoint find_from (idx : Z) (results : list dict) (business_lower : string)
  : attempt (option Z) :=
  match results with
  | [] => Returned None
  | item :: rest =>
      match item_matches business_lower item with
      | AttributeError => AttributeError
      | Returned true => Returned (Some (idx + 1)%Z)
      | Returned false => find_from (idx + 1) rest business_lower
      end
  end.

Definition _find_business_in_results (results : list dict) (business_name : string)
  : attempt (option Z) :=
  let business_lower := str_lower business_name in
  find_from 0 results business_lower.
End Serp.

(** [str.lower] on ASCII text, to run [_find_business_in_results] on
    concrete inputs. *)
Definition ascii_lower (c : ascii) : ascii :=
  let n := nat_of_ascii c in
  if ((65 <=? n) && (n <=? 90))%nat then ascii_of_nat (n + 32) else c.

Fixpoint lower_ascii (s : string) : string :=
  match s with
  | EmptyString => EmptyString
  | String c rest => String (ascii_lower c) (lower_ascii rest)
  end.

(** [range(start, stop, step)] *)
Definition range_step (start stop step : Z) : result (list Z) :=
  if (step =? 0)%Z then Raise (ValueError "range() arg 3 must not be zero")
  else
    let count :=
      if (0 <? step)%Z then ((stop - start + step - 1) / step)%Z
      else ((start - stop - step - 1) / (- step))%Z in
    Ok (map (fun k => (start + Z.of_nat k * step)%Z) (seq 0 (Z.to_nat count))).

(** [l[lo:hi]]: a negative bound counts from the end, and both are clipped
    to the list. *)
Definition py_slice {A : Type} (l : list A) (lo hi : Z) : list A :=
  let len := Z.of_nat (List.length l) in
  let clip k := if (k <? 0)%Z then Z.max 0 (k + len) else Z.min k len in
  firstn (Z.to_nat (clip hi - clip lo)) (skipn (Z.to_nat (clip lo)) l).

(** The settings [process_grid_search] reads. *)
Record Settings : Type := mkSettings {
  scale_serp_api_key : string;
  serp_batch_size : Z;
  serp_batch_delay_seconds : Q
}.

(** The defaults of [config.py]. *)
Definition default_settings : Settings :=
  {| scale_serp_api_key := "";
     serp_batch_size := 5;
     serp_batch_delay_seconds := 1 # 2 |}.

(** What [process_grid_search] awaits, in order: the gathering of one batch
    of requests, and the pause between two batches. *)
Inductive event : Type :=
| Gather (batch : list GridPoint)
| Sleep (seconds : Q).

Section GridSearch.
Variable settings : Settings.

(** [api_key or settings.scale_serp_api_key]: an absent or empty argument
    falls back to the settings. *)
Definition effective_key (api_key : option string) : string :=
  match api_key with
  | Some k => if (k =? "")%string then scale_serp_api_key settings else k
  | None => scale_serp_api_key settings
  end.

(** The [RankResult] awaited from [fetch_rank_at_point(client, point,
    business_name, keyword, key)]. *)
Variable fetch_rank_at_point : GridPoint -> string -> string -> string -> RankResult.

(** [process_grid_search]: the results, and the trace of what was awaited.
    [asyncio.gather] returns the results of a batch in the order of its
    tasks. *)
Definition process_grid_search (points : list GridPoint)
    (business_name keyword : string) (api_key : option string)
  : result (list RankResult * list event) :=
  let key := effective_key api_key in
  if (key =? "")%string then Raise (ValueError "Scale SERP API key is required")
  else
    let batch_size := serp_batch_size settings in
    let delay := serp_batch_delay_seconds settings in
    starts <- range_step 0 (Z.of_nat (List.length points)) batch_size ;;
    for_in starts (fun i st =>
      let batch := py_slice points i (i + batch_size) in
      let batch_results :=
        map (fun point => fetch_rank_at_point point business_name keyword key) batch in
      let results := fst st ++ batch_results in
      let trace := snd st ++ [Gather batch] in
      if (i + batch_size <? Z.of_nat (List.length points))%Z
      then Ok (results, trace ++ [Sleep delay])
      else Ok (results, trace))
      ([], []).
End GridSearch.

(** A lookup that never finds the business, to run [process_grid_search]
    on concrete inputs. *)
Definition fetch_not_found (point : GridPoint) (business_name keyword key : string)
  : RankResult :=
  {| grid_x := x point;
     grid_y := y point;
     rr_latitude := latitude point;
     rr_longitude := longitude point;
     rank_position := None;
     serp_data := None |}.

(** The consecutive batches of [size] elements of a list; the last one may
    be shorter. *)
Definition batches {A : Type} (size : nat) (l : list A) : list (list A) :=
  map (fun k => firstn size (skipn (k * size) l))
      (seq 0 ((List.length l + size - 1) / size)).

(** [x] between the elements of a list. *)
Fixpoint intersperse {A : Type} (x : A) (l : list A) : list A :=
  match l with
  | [] => []
  | [a] => [a]
  | a :: rest => a :: x :: intersperse x rest
  end.

(** ** The quantities of the specification

    The documented input domain and the formulas of the algorithm, written
    with the operations of the float arithmetic. *)

Definition valid_grid_size (grid_size : Z) : Prop := In grid_size [3; 5; 7]%Z.

Definition valid_radius (radius_km : Q) : Prop := 0 < radius_km /\ radius_km <= inject_Z 50.

Definition color_eqb (a b : color) : bool :=
  match a, b with
  | red, red | green, green | yellow, yellow => true
  | _, _ => false
  end.

(** The number of observations that [get_rank_color] paints with [c]. *)
Definition count_color (c : color) (ranks : list (option Z)) : Z :=
  Z.of_nat (List.length (filter (fun r => color_eqb (get_rank_color r) c) ranks)).

(** The label as the specification words it, [Point_{row}_{column}]. *)
Definition spec_label (row column : Z) : string :=
  "Point_" ++ str row ++ "_" ++ str column.

(** The label as the source formats it, [Ponto_{row}_{col}]. *)
Definition ponto_label (row col : Z) : string :=
  "Ponto_" ++ str row ++ "_" ++ str col.

(** The rank an observation counts for in the visibility score: an absent
    rank counts as 20. *)
Definition rank_or_20 (rank : option Z) : Z :=
  match rank with
  | Some r => r
  | None => 20%Z
  end.

Definition rank_sum (ranks : list (option Z)) : Z :=
  fold_right Z.add 0%Z (map rank_or_20 ranks).

(** The present rank values, in order. *)
Fixpoint present_ranks (ranks : list (option Z)) : list Z :=
  match ranks with
  | [] => []
  | Some r :: rest => r :: present_ranks rest
  | None :: rest => present_ranks rest
  end.

Definition all_absent (ranks : list (option Z)) : Prop :=
  Forall (fun rank => rank = None) ranks.

Definition all_rank_1 (ranks : list (option Z)) : Prop :=
  Forall (fun rank => rank = Some 1%Z) ranks.

(** A mixed sequence has a present and an absent rank. *)
Definition mixed (ranks : list (option Z)) : Prop :=
  (exists r, In (Some r) ranks) /\ In None ranks.

(** Ranks are positive integers. *)
Definition positive_ranks (ranks : list (option Z)) : Prop :=
  forall r, In (Some r) ranks -> (1 <= r)%Z.

Definition clamp (lo hi v : Q) : Q :=
  if Qltb v lo then lo else if Qltb hi v then hi else v.

Section Formulas.
Context {PF : PyFloat}.

(** [round(clamp(((total * 20 - rank_sum) / (total * 20 - total)) * 100,
    0, 100), 2)] with [total = grid_size^2]. *)
Definition visibility_formula (ranks : list (option Z)) (grid_size : Z) : Q :=
  let total := (grid_size ^ 2)%Z in
  round_ndigits
    (clamp 0 (inject_Z 100)
       (fmul (rnd (inject_Z (total * 20 - rank_sum ranks)
                   / inject_Z (total * 20 - total)))
             (of_int 100)))
    2.

(** The score before clamping and rounding,
    [((max_score - rank_sum) / (max_score - total_points)) * 100]. *)
Definition raw_score (ranks : list (option Z)) (grid_size : Z) : Q :=
  fmul (rnd (inject_Z (grid_size * grid_size * 20 - rank_sum ranks)
             / inject_Z (grid_size * grid_size * 20 - grid_size * grid_size)))
       (of_int 100).

(** [round(mean(present values), 2)] *)
Definition mean_formula (ranks : list (option Z)) : Q :=
  round_ndigits
    (rnd (inject_Z (fold_right Z.add 0%Z (present_ranks ranks))
          / inject_Z (Z.of_nat (List.length (present_ranks ranks)))))
    2.

Definition step_m (radius_km : Q) (grid_size : Z) : Q :=
  rnd (fmul radius_km (of_int 2000) / of_int (grid_size - 1)).

Definition half (grid_size : Z) : Q :=
  rnd (inject_Z (grid_size - 1) / inject_Z 2).

Definition meters_per_degree_lng (center_lat : Q) : Q :=
  fmul (of_int 111111) (math_cos (math_radians center_lat)).

(** [round(center_lat + (half - r) * step_m / 111111, 6)] *)
Definition formula_latitude (center_lat radius_km : Q) (grid_size r : Z) : Q :=
  round_ndigits
    (fadd center_lat
       (rnd (fmul (fsub (half grid_size) (of_int r)) (step_m radius_km grid_size)
             / of_int 111111)))
    6.

(** [round(center_lng + (c - half) * step_m / (111111 * cos(radians(center_lat))), 6)] *)
Definition formula_longitude (center_lat center_lng radius_km : Q) (grid_size c : Z) : Q :=
  round_ndigits
    (fadd center_lng
       (rnd (fmul (fsub (of_int c) (half grid_size)) (step_m radius_km grid_size)
             / meters_per_degree_lng center_lat)))
    6.

Definition grid_point (center_lat center_lng radius_km : Q) (grid_size row col : Z)
  : GridPoint :=
  {| x := col;
     y := row;
     latitude := formula_latitude center_lat radius_km grid_size row;
     longitude := formula_longitude center_lat center_lng radius_km grid_size col;
     label := "Ponto_" ++ str row ++ "_" ++ str col |}.

End Formulas.

(** ** An instance of the float format: exact arithmetic

    Every rational is representable and [rnd] only reduces the fraction.  It
    satisfies the laws of [PyFloat] and is used to run the definitions on
    concrete inputs.  [cos_series] stands for the C library's cosine there:
    the Maclaurin polynomial of degree 12. *)

Definition cos_series (t : Q) : Q :=
  let s := t * t in
  1 - s / 2 * (1 - s / 12 * (1 - s / 30 * (1 - s / 56 * (1 - s / 90 * (1 - s / 132))))).

Lemma Qabs_self_diff (q : Q) : Qabs (Qred q - q) == 0.
Proof.
  rewrite (Qred_correct q).
  setoid_replace (q - q) with 0 by ring.
  reflexivity.
Qed.

Lemma exact_compat (a b : Q) : a == b -> Qred a == Qred b.
Proof. intros E. rewrite !Qred_correct. exact E. Qed.

Lemma exact_nearest (a b : Q) : Qred b == b -> Qabs (Qred a - a) <= Qabs (b - a).
Proof. intros _. rewrite Qabs_self_diff. apply Qabs_nonneg. Qed.

Lemma exact_int (z : Z) : (Z.abs z <= 2 ^ 53)%Z -> Qred (inject_Z z) == inject_Z z.
Proof. intros _. apply Qred_correct. Qed.

Lemma exact_rel (a : Q) :
  min_normal <= Qabs a -> Qabs (Qred a - a) <= unit_roundoff * Qabs a.
Proof.
  intros _. rewrite Qabs_self_diff.
  apply Qmult_le_0_compat; [ discriminate | apply Qabs_nonneg ].
Qed.

Definition exact_float : PyFloat := {|
  rnd := Qred;
  rnd_compat := exact_compat;
  rnd_nearest := exact_nearest;
  rnd_int := exact_int;
  rnd_rel := exact_rel;
  math_cos := fun t => Qred (cos_series t);
  math_cos_float := fun t => Qred_correct (Qred (cos_series t))
|}.

(** A concrete call used to exercise the statements below: the 3 x 3 grid of
    radius 2 km around (-22.9711, -43.1825), in exact arithmetic. *)
Definition copacabana : result (list GridPoint) :=
  @generate_geogrid exact_float (-229711 # 10000) (-431825 # 10000) 2 3.

(** ** Facts about the runtime *)

Section RuntimeFacts.
Context {PF : PyFloat}.

#[export] Instance rnd_Proper : Proper (Qeq ==> Qeq) rnd.
Proof. intros a b H. apply rnd_compat; exact H. Qed.

Lemma of_int_small (z : Z) : (Z.abs z <= 2 ^ 53)%Z -> of_int z == inject_Z z.
Proof. apply rnd_int. Qed.

Lemma rnd_0 : rnd 0 == 0.
Proof. apply (rnd_int 0). vm_compute. discriminate. Qed.

(** Rounding never crosses a representable value. *)
Lemma rnd_le_float (a b : Q) : rnd b == b -> a <= b -> rnd a <= b.
Proof.
  intros Hb Hab. pose proof (rnd_nearest a b Hb) as Hn.
  rewrite (Qabs_pos (b - a)) in Hn by lra.
  apply Qabs_Qle_condition in Hn. lra.
Qed.

Lemma rnd_ge_float (a b : Q) : rnd b == b -> b <= a -> b <= rnd a.
Proof.
  intros Hb Hab. pose proof (rnd_nearest a b Hb) as Hn.
  rewrite (Qabs_neg (b - a)) in Hn by lra.
  apply Qabs_Qle_condition in Hn. lra.
Qed.

(** Relative error of one rounding, for a positive argument. *)
Lemma rnd_rel_pos (a : Q) :
  min_normal <= a ->
  a * (1 - unit_roundoff) <= rnd a <= a * (1 + unit_roundoff).
Proof.
  intros Ha.
  assert (H0 : 0 < min_normal) by reflexivity.
  pose proof (rnd_rel a) as Hr.
  rewrite (Qabs_pos a) in Hr by lra.
  specialize (Hr Ha). apply Qabs_Qle_condition in Hr. lra.
Qed.
End RuntimeFacts.

(** *** Rounding to an integer and to decimals *)

Lemma Qltb_true (a b : Q) : Qltb a b = true <-> a < b.
Proof.
  unfold Qltb. rewrite negb_true_iff.
  destruct (Qle_bool b a) eqn:E.
  - apply Qle_bool_iff in E. split; [ discriminate | intros H; lra ].
  - split; [ intros _ | reflexivity ].
    apply Qnot_le_lt. intros H. apply Qle_bool_iff in H. congruence.
Qed.

Lemma Qltb_false (a b : Q) : Qltb a b = false <-> b <= a.
Proof.
  unfold Qltb. rewrite negb_false_iff. apply Qle_bool_iff.
Qed.

#[export] Instance Qltb_Proper : Proper (Qeq ==> Qeq ==> eq) Qltb.
Proof.
  intros a a' Ha b b' Hb.
  destruct (Qltb a b) eqn:E; symmetry.
  - apply Qltb_true in E. apply Qltb_true. lra.
  - apply Qltb_false in E. apply Qltb_false. lra.
Qed.

#[export] Instance round_half_even_Proper : Proper (Qeq ==> eq) round_half_even.
Proof.
  intros a b H. unfold round_half_even; cbv zeta.
  rewrite (Qfloor_comp a b H).
  assert (E : a - inject_Z (Qfloor b) == b - inject_Z (Qfloor b)) by lra.
  rewrite (Qltb_Proper _ _ E _ _ (Qeq_refl (1 # 2))).
  rewrite (Qltb_Proper _ _ (Qeq_refl (1 # 2)) _ _ E).
  reflexivity.
Qed.

Lemma round_half_even_close (a : Q) :
  Qabs (inject_Z (round_half_even a) - a) <= 1 # 2.
Proof.
  unfold round_half_even; cbv zeta.
  pose proof (Qfloor_le a) as Hl. pose proof (Qlt_floor a) as Hu.
  rewrite inject_Z_plus in Hu. change (inject_Z 1) with 1 in Hu.
  apply Qabs_Qle_condition.
  destruct (Qltb (a - inject_Z (Qfloor a)) (1 # 2)) eqn:E1;
    [ apply Qltb_true in E1 | apply Qltb_false in E1 ].
  2: destruct (Qltb (1 # 2) (a - inject_Z (Qfloor a))) eqn:E2;
    [ apply Qltb_true in E2 | apply Qltb_false in E2 ].
  3: destruct (Z.even (Qfloor a)).
  all: rewrite ?inject_Z_plus; change (inject_Z 1) with 1.
  all: generalize dependent (inject_Z (Qfloor a)); intros f; intros; lra.
Qed.

Lemma round_half_even_int (z : Z) : round_half_even (inject_Z z) = z.
Proof.
  unfold round_half_even; cbv zeta. rewrite Qfloor_Z.
  assert (E : Qltb (inject_Z z - inject_Z z) (1 # 2) = true).
  { apply Qltb_true. setoid_replace (inject_Z z - inject_Z z) with 0 by ring.
    reflexivity. }
  rewrite E. reflexivity.
Qed.

Lemma pow10_pos (n : Z) : (0 <= n)%Z -> 0 < pow10 n.
Proof.
  intros H. unfold pow10.
  change 0 with (inject_Z 0). rewrite <- Zlt_Qlt.
  apply Z.pow_pos_nonneg; lia.
Qed.

Section RoundFacts.
Context {PF : PyFloat}.

#[export] Instance round_ndigits_Proper : Proper (Qeq ==> eq ==> Qeq) round_ndigits.
Proof.
  intros a b H n m <-. unfold round_ndigits.
  assert (E : a * pow10 n == b * pow10 n) by (rewrite H; reflexivity).
  rewrite (round_half_even_Proper _ _ E). reflexivity.
Qed.

(** The decimal nearest to [a] with [n] places is within half a unit of
    the last place. *)
Lemma decimal_close (a : Q) (n : Z) :
  (0 <= n)%Z ->
  Qabs (inject_Z (round_half_even (a * pow10 n)) / pow10 n - a)
    <= (1 # 2) / pow10 n.
Proof.
  intros Hn. pose proof (pow10_pos n Hn) as Hp.
  pose proof (round_half_even_close (a * pow10 n)) as Hc.
  set (k := inject_Z (round_half_even (a * pow10 n))) in *.
  apply Qabs_Qle_condition in Hc. apply Qabs_Qle_condition.
  assert (E : k / pow10 n - a == (k - a * pow10 n) / pow10 n)
    by (field; lra).
  rewrite E.
  split.
  - setoid_replace (- ((1 # 2) / pow10 n)) with ((- (1 # 2)) / pow10 n)
      by (field; lra).
    apply Qmult_le_compat_r; [ lra | ].
    apply Qlt_le_weak, Qinv_lt_0_compat, Hp.
  - apply Qmult_le_compat_r; [ lra | ].
    apply Qlt_le_weak, Qinv_lt_0_compat, Hp.
Qed.

(** [round(c, n)] of a float [c] differs from [c] by at most one unit of
    the [n]-th decimal place. *)
Lemma round_ndigits_close (c : Q) (n : Z) :
  (0 <= n)%Z -> rnd c == c ->
  Qabs (round_ndigits c n - c) <= 1 / pow10 n.
Proof.
  intros Hn Hc. unfold round_ndigits.
  pose proof (pow10_pos n Hn) as Hp.
  pose proof (decimal_close c n Hn) as Hd.
  set (d := inject_Z (round_half_even (c * pow10 n)) / pow10 n) in *.
  pose proof (rnd_nearest d c Hc) as Hr.
  assert (Hh : (1 # 2) / pow10 n + (1 # 2) / pow10 n == 1 / pow10 n)
    by (field; lra).
  apply Qabs_Qle_condition in Hd.
  apply Qabs_Qle_condition.
  revert Hr. apply Qabs_case; intros H1; apply Qabs_case; intros H2 Hr; lra.
Qed.
(** [round] leaves an integer-valued float unchanged. *)
Lemma round_ndigits_int (z n : Z) :
  (0 <= n)%Z -> (Z.abs z <= 2 ^ 53)%Z ->
  round_ndigits (inject_Z z) n == inject_Z z.
Proof.
  intros Hn Hz. unfold round_ndigits.
  pose proof (pow10_pos n Hn) as Hp.
  assert (E : inject_Z z * pow10 n == inject_Z (z * 10 ^ n)).
  { unfold pow10. now rewrite inject_Z_mult. }
  rewrite (round_half_even_Proper _ _ E), round_half_even_int.
  assert (E' : inject_Z (z * 10 ^ n) / pow10 n == inject_Z z).
  { rewrite <- E. field. lra. }
  rewrite E'. now apply rnd_int.
Qed.
(** [round] keeps a value between two representable integers. *)
Lemma round_ndigits_bounds (a b : Z) (v : Q) (n : Z) :
  (0 <= n)%Z ->
  rnd (inject_Z a) == inject_Z a -> rnd (inject_Z b) == inject_Z b ->
  inject_Z a <= v <= inject_Z b ->
  inject_Z a <= round_ndigits v n <= inject_Z b.
Proof.
  intros Hn Ha Hb [Hav Hvb]. unfold round_ndigits.
  pose proof (pow10_pos n Hn) as Hp.
  pose proof (round_half_even_close (v * pow10 n)) as Hc.
  apply Qabs_Qle_condition in Hc.
  set (k := round_half_even (v * pow10 n)) in *.
  assert (Hlo : inject_Z a * pow10 n <= v * pow10 n)
    by (apply Qmult_le_compat_r; lra).
  assert (Hhi : v * pow10 n <= inject_Z b * pow10 n)
    by (apply Qmult_le_compat_r; lra).
  unfold pow10 in Hlo, Hhi, Hc. rewrite <- inject_Z_mult in Hlo, Hhi.
  assert (Hka : (a * 10 ^ n <= k)%Z).
  { assert (H : inject_Z (a * 10 ^ n) < inject_Z (k + 1)).
    { rewrite inject_Z_plus. change (inject_Z 1) with 1. lra. }
    rewrite <- Zlt_Qlt in H. lia. }
  assert (Hkb : (k <= b * 10 ^ n)%Z).
  { assert (H : inject_Z k < inject_Z (b * 10 ^ n + 1)).
    { rewrite inject_Z_plus. change (inject_Z 1) with 1. lra. }
    rewrite <- Zlt_Qlt in H. lia. }
  rewrite Zle_Qle, inject_Z_mult in Hka, Hkb. fold (pow10 n) in Hka, Hkb.
  split.
  - apply rnd_ge_float; [ assumption | ].
    apply Qle_shift_div_l; assumption.
  - apply rnd_le_float; [ assumption | ].
    apply Qle_shift_div_r; assumption.
Qed.
End RoundFacts.

(** *** Loops and ranges *)

Lemma for_in_append {A B : Type} (xs : list A) (g : A -> list B)
    (body : A -> list B -> result (list B)) :
  (forall a s, In a xs -> body a s = Ok (s ++ g a)) ->
  forall s, for_in xs body s = Ok (s ++ flat_map g xs).
Proof.
  induction xs as [ | a xs IH ]; intros Hb s; simpl.
  - now rewrite app_nil_r.
  - rewrite Hb by (left; reflexivity). simpl.
    rewrite IH by (intros; apply Hb; right; assumption).
    now rewrite app_assoc.
Qed.

Lemma flat_map_single {A B : Type} (f : A -> B) (xs : list A) :
  flat_map (fun a => [f a]) xs = map f xs.
Proof. induction xs; simpl; congruence. Qed.

Lemma length_range (n : Z) : List.length (range n) = Z.to_nat n.
Proof. unfold range. now rewrite length_map, length_seq. Qed.

Lemma nth_error_range (n k : Z) :
  (0 <= k < n)%Z -> nth_error (range n) (Z.to_nat k) = Some k.
Proof.
  intros H. unfold range.
  rewrite nth_error_map, nth_error_seq.
  destruct (Nat.ltb_spec (Z.to_nat k) (Z.to_nat n)); [ | lia ].
  simpl. f_equal. lia.
Qed.

Lemma In_range (n k : Z) : In k (range n) <-> (0 <= k < n)%Z.
Proof.
  unfold range. rewrite in_map_iff. split.
  - intros (i & <- & Hi). apply in_seq in Hi. lia.
  - intros H. exists (Z.to_nat k). split; [ lia | apply in_seq; lia ].
Qed.

Lemma length_flat_map_uniform {A B : Type} (g : A -> list B) (m : nat) (xs : list A) :
  (forall a, List.length (g a) = m) ->
  List.length (flat_map g xs) = (List.length xs * m)%nat.
Proof.
  intros Hg. induction xs as [ | a xs IH ]; simpl; [ reflexivity | ].
  now rewrite length_app, Hg, IH.
Qed.

Lemma nth_error_flat_map_uniform {A B : Type} (g : A -> list B) (m : nat) :
  (forall a, List.length (g a) = m) ->
  forall (xs : list A) (i j : nat) (a : A),
    nth_error xs i = Some a -> (j < m)%nat ->
    nth_error (flat_map g xs) (i * m + j) = nth_error (g a) j.
Proof.
  intros Hg. induction xs as [ | a0 xs IH ]; intros i j a Hi Hj.
  - destruct i; discriminate.
  - destruct i as [ | i ]; simpl in *.
    + injection Hi as ->. apply nth_error_app1. now rewrite Hg.
    + rewrite nth_error_app2 by (rewrite Hg; lia).
      rewrite Hg. replace (m + i * m + j - m)%nat with (i * m + j)%nat by lia.
      now apply IH.
Qed.

(** The cell at row [r], column [c] of a square table laid out row by row. *)
Lemma nth_error_table {B : Type} (f : Z -> Z -> B) (n r c : Z) :
  (0 <= r < n)%Z -> (0 <= c < n)%Z ->
  nth_error (flat_map (fun row => map (f row) (range n)) (range n))
            (Z.to_nat (r * n + c)) = Some (f r c).
Proof.
  intros Hr Hc.
  replace (Z.to_nat (r * n + c)) with (Z.to_nat r * Z.to_nat n + Z.to_nat c)%nat
    by nia.
  rewrite (nth_error_flat_map_uniform (fun row => map (f row) (range n)) (Z.to_nat n))
    with (a := r).
  - rewrite nth_error_map, nth_error_range by assumption. reflexivity.
  - intros a. now rewrite length_map, length_range.
  - now apply nth_error_range.
  - lia.
Qed.

Lemma length_table {B : Type} (f : Z -> Z -> B) (n : Z) :
  (0 <= n)%Z ->
  Z.of_nat (List.length (flat_map (fun row => map (f row) (range n)) (range n)))
  = (n * n)%Z.
Proof.
  intros Hn.
  rewrite (length_flat_map_uniform (fun row => map (f row) (range n)) (Z.to_nat n)).
  - rewrite length_range. nia.
  - intros a. now rewrite length_map, length_range.
Qed.

(** ** The grid generator in closed form *)

Section GeneratorFacts.
Context {PF : PyFloat}.

Lemma valid_grid_size_existsb (n : Z) :
  existsb (Z.eqb n) [3; 5; 7]%Z = true <-> valid_grid_size n.
Proof.
  unfold valid_grid_size. rewrite existsb_exists. split.
  - intros (k & Hk & E). apply Z.eqb_eq in E. now subst.
  - intros H. exists n. split; [ assumption | apply Z.eqb_refl ].
Qed.

Lemma valid_grid_size_cases (n : Z) :
  valid_grid_size n -> n = 3%Z \/ n = 5%Z \/ n = 7%Z.
Proof. unfold valid_grid_size. simpl. intuition congruence. Qed.

Lemma Qeq_bool_false (a : Q) : ~ a == 0 -> Qeq_bool a 0 = false.
Proof.
  intros H. destruct (Qeq_bool a 0) eqn:E; [ | reflexivity ].
  apply Qeq_bool_eq in E. contradiction.
Qed.

Lemma of_int_nonzero (z : Z) :
  (Z.abs z <= 2 ^ 53)%Z -> z <> 0%Z -> ~ of_int z == 0.
Proof.
  intros Hb Hz E. rewrite (of_int_small z Hb) in E.
  change 0 with (inject_Z 0) in E.
  apply Hz. now apply (proj1 (inject_Z_injective z 0)).
Qed.

(** A nonzero cosine gives a nonzero number of meters per degree: the
    product with 111111 is further from zero than the cosine itself. *)
Lemma meters_per_degree_lng_nonzero (center_lat : Q) :
  ~ math_cos (math_radians center_lat) == 0 ->
  ~ meters_per_degree_lng center_lat == 0.
Proof.
  unfold meters_per_degree_lng, fmul.
  set (c := math_cos (math_radians center_lat)).
  intros Hc E.
  assert (Hi : of_int 111111 == inject_Z 111111)
    by (apply of_int_small; vm_compute; discriminate).
  rewrite Hi in E.
  pose proof (rnd_nearest (inject_Z 111111 * c) c (math_cos_float _)) as Hn.
  rewrite E in Hn.
  change (inject_Z 111111) with (111111 # 1) in Hn.
  revert Hn. apply Qabs_case; intros H1; apply Qabs_case; intros H2 Hn;
    apply Hc; lra.
Qed.

Lemma generate_geogrid_ok (center_lat center_lng radius_km : Q) (grid_size : Z) :
  valid_grid_size grid_size -> valid_radius radius_km ->
  ~ meters_per_degree_lng center_lat == 0 ->
  generate_geogrid center_lat center_lng radius_km grid_size
  = Ok (flat_map
          (fun row => map (grid_point center_lat center_lng radius_km grid_size row)
                          (range grid_size))
          (range grid_size)).
Proof.
  intros Hg [Hr0 Hr50] Hm. unfold generate_geogrid.
  apply valid_grid_size_existsb in Hg as Hg'. rewrite Hg'. simpl negb. cbv iota.
  assert (E1 : Qle_bool radius_km 0 = false).
  { destruct (Qle_bool radius_km 0) eqn:E; [ | reflexivity ].
    apply Qle_bool_iff in E. lra. }
  assert (E2 : Qltb (inject_Z 50) radius_km = false) by now apply Qltb_false.
  rewrite E1, E2.
  assert (E3 : Qeq_bool (of_int (grid_size - 1)) 0 = false).
  { apply Qeq_bool_false, of_int_nonzero;
      destruct (valid_grid_size_cases _ Hg) as [-> | [-> | ->]];
      vm_compute; congruence. }
  assert (E4 : Qeq_bool (of_int 111111) 0 = false).
  { apply Qeq_bool_false, of_int_nonzero; vm_compute; congruence. }
  unfold truediv at 1. rewrite E3. cbn [bind].
  unfold int_truediv. cbn [Z.eqb bind].
  rewrite (for_in_append (range grid_size)
             (fun row => map (grid_point center_lat center_lng radius_km grid_size row)
                             (range grid_size))).
  - reflexivity.
  - intros row s _.
    rewrite (for_in_append (range grid_size)
               (fun col => [grid_point center_lat center_lng radius_km grid_size row col])).
    + now rewrite flat_map_single.
    + intros col s' _. unfold truediv. rewrite E4.
      fold (meters_per_degree_lng center_lat).
      rewrite (Qeq_bool_false _ Hm). reflexivity.
Qed.
End GeneratorFacts.

Section GeneratorErrors.
Context {PF : PyFloat}.

Lemma cos_zero_meters_zero (center_lat : Q) :
  math_cos (math_radians center_lat) == 0 ->
  meters_per_degree_lng center_lat == 0.
Proof.
  intros E. unfold meters_per_degree_lng, fmul.
  rewrite E. setoid_replace (of_int 111111 * 0) with 0 by ring.
  apply rnd_0.
Qed.

Lemma range_cons (n : Z) :
  (0 < n)%Z -> exists rest, range n = 0%Z :: rest.
Proof.
  intros H. unfold range.
  destruct (Z.to_nat n) as [ | m ] eqn:E; [ lia | ].
  simpl. eexists. reflexivity.
Qed.

(** With a valid size and radius the only exception left is the division
    by [meters_per_lng_degree], raised for the first point. *)
Lemma generate_geogrid_zero_division
    (center_lat center_lng radius_km : Q) (grid_size : Z) :
  valid_grid_size grid_size -> valid_radius radius_km ->
  meters_per_degree_lng center_lat == 0 ->
  generate_geogrid center_lat center_lng radius_km grid_size
  = Raise ZeroDivisionError.
Proof.
  intros Hg [Hr0 Hr50] Hm. unfold generate_geogrid.
  apply valid_grid_size_existsb in Hg as Hg'. rewrite Hg'. simpl negb. cbv iota.
  assert (E1 : Qle_bool radius_km 0 = false).
  { destruct (Qle_bool radius_km 0) eqn:E; [ | reflexivity ].
    apply Qle_bool_iff in E. lra. }
  assert (E2 : Qltb (inject_Z 50) radius_km = false) by now apply Qltb_false.
  rewrite E1, E2.
  assert (E3 : Qeq_bool (of_int (grid_size - 1)) 0 = false).
  { apply Qeq_bool_false, of_int_nonzero;
      destruct (valid_grid_size_cases _ Hg) as [-> | [-> | ->]];
      vm_compute; congruence. }
  assert (E4 : Qeq_bool (of_int 111111) 0 = false).
  { apply Qeq_bool_false, of_int_nonzero; vm_compute; congruence. }
  unfold truediv at 1. rewrite E3. cbn [bind].
  unfold int_truediv. cbn [Z.eqb bind].
  destruct (range_cons grid_size) as (rest & ->).
  { destruct (valid_grid_size_cases _ Hg) as [-> | [-> | ->]]; lia. }
  cbn [for_in]. unfold truediv. rewrite E4.
  fold (meters_per_degree_lng center_lat).
  assert (E5 : Qeq_bool (meters_per_degree_lng center_lat) 0 = true)
    by now apply Qeq_bool_iff.
  rewrite E5. reflexivity.
Qed.

Lemma generate_geogrid_value_error
    (center_lat center_lng radius_km : Q) (grid_size : Z) :
  ~ valid_grid_size grid_size \/ radius_km <= 0 \/ inject_Z 50 < radius_km ->
  exists msg,
    generate_geogrid center_lat center_lng radius_km grid_size
    = Raise (ValueError msg).
Proof.
  intros H. unfold generate_geogrid.
  destruct (existsb (Z.eqb grid_size) [3; 5; 7]%Z) eqn:Eg; simpl negb; cbv iota.
  2: eexists; reflexivity.
  destruct (Qle_bool radius_km 0) eqn:E1; [ eexists; reflexivity | ].
  destruct (Qltb (inject_Z 50) radius_km) eqn:E2; [ eexists; reflexivity | ].
  exfalso. apply valid_grid_size_existsb in Eg. apply Qltb_false in E2.
  destruct H as [H | [H | H]].
  - contradiction.
  - apply Qle_bool_iff in H. congruence.
  - lra.
Qed.

Lemma valid_radius_dec (radius_km : Q) :
  valid_radius radius_km \/ radius_km <= 0 \/ inject_Z 50 < radius_km.
Proof.
  unfold valid_radius.
  destruct (Qlt_le_dec 0 radius_km); [ | now right; left ].
  destruct (Qlt_le_dec (inject_Z 50) radius_km); [ now right; right | now left ].
Qed.

Lemma valid_grid_size_dec (n : Z) : valid_grid_size n \/ ~ valid_grid_size n.
Proof.
  destruct (existsb (Z.eqb n) [3; 5; 7]%Z) eqn:E.
  - left. now apply valid_grid_size_existsb.
  - right. intros H. apply valid_grid_size_existsb in H. congruence.
Qed.
End GeneratorErrors.

(** *** The center cell *)

Section CenterFacts.
Context {PF : PyFloat}.

Lemma half_center (grid_size : Z) :
  valid_grid_size grid_size ->
  half grid_size == inject_Z ((grid_size - 1) / 2).
Proof.
  intros Hg. unfold half.
  destruct (valid_grid_size_cases _ Hg) as [-> | [-> | ->]].
  - setoid_replace (inject_Z (3 - 1) / inject_Z 2) with (inject_Z 1) by reflexivity.
    apply rnd_int. vm_compute. discriminate.
  - setoid_replace (inject_Z (5 - 1) / inject_Z 2) with (inject_Z 2) by reflexivity.
    apply rnd_int. vm_compute. discriminate.
  - setoid_replace (inject_Z (7 - 1) / inject_Z 2) with (inject_Z 3) by reflexivity.
    apply rnd_int. vm_compute. discriminate.
Qed.

Lemma center_index (grid_size : Z) :
  valid_grid_size grid_size ->
  ((grid_size ^ 2 - 1) / 2
   = (grid_size - 1) / 2 * grid_size + (grid_size - 1) / 2)%Z
  /\ (0 <= (grid_size - 1) / 2 < grid_size)%Z
  /\ (Z.abs ((grid_size - 1) / 2) <= 2 ^ 53)%Z.
Proof.
  intros Hg.
  destruct (valid_grid_size_cases _ Hg) as [-> | [-> | ->]];
    vm_compute; intuition congruence.
Qed.

Lemma fsub_same (a b : Q) : a == b -> fsub a b == 0.
Proof.
  intros E. unfold fsub.
  setoid_replace (a - b) with 0 by lra. apply rnd_0.
Qed.

Lemma fmul_zero_l (a b : Q) : a == 0 -> fmul a b == 0.
Proof.
  intros E. unfold fmul.
  setoid_replace (a * b) with 0 by (rewrite E; ring). apply rnd_0.
Qed.

Lemma rnd_div_zero (a b : Q) : a == 0 -> rnd (a / b) == 0.
Proof.
  intros E.
  setoid_replace (a / b) with 0 by (rewrite E; unfold Qdiv; ring). apply rnd_0.
Qed.

Lemma fadd_zero_r (c d : Q) : rnd c == c -> d == 0 -> fadd c d == c.
Proof.
  intros Hc E. unfold fadd.
  setoid_replace (c + d) with c by lra. exact Hc.
Qed.

(** At the center cell both offsets vanish: the coordinates are the
    6-decimal roundings of the center. *)
Lemma formula_latitude_center (center_lat radius_km : Q) (grid_size : Z) :
  valid_grid_size grid_size -> rnd center_lat == center_lat ->
  formula_latitude center_lat radius_km grid_size ((grid_size - 1) / 2)
  == round_ndigits center_lat 6.
Proof.
  intros Hg Hc. unfold formula_latitude.
  destruct (center_index _ Hg) as (_ & _ & Hb).
  apply round_ndigits_Proper; [ | reflexivity ].
  apply fadd_zero_r; [ assumption | ].
  apply rnd_div_zero, fmul_zero_l, fsub_same.
  rewrite (half_center _ Hg). symmetry. now apply of_int_small.
Qed.

Lemma formula_longitude_center (center_lat center_lng radius_km : Q) (grid_size : Z) :
  valid_grid_size grid_size -> rnd center_lng == center_lng ->
  formula_longitude center_lat center_lng radius_km grid_size ((grid_size - 1) / 2)
  == round_ndigits center_lng 6.
Proof.
  intros Hg Hc. unfold formula_longitude.
  destruct (center_index _ Hg) as (_ & _ & Hb).
  apply round_ndigits_Proper; [ | reflexivity ].
  apply fadd_zero_r; [ assumption | ].
  apply rnd_div_zero, fmul_zero_l, fsub_same.
  rewrite (half_center _ Hg). now apply of_int_small.
Qed.

Lemma round6_within_tolerance (c : Q) :
  rnd c == c -> Qabs (round_ndigits c 6 - c) <= 1 # 10000.
Proof.
  intros Hc.
  apply Qle_trans with (1 / pow10 6).
  - apply round_ndigits_close; [ lia | assumption ].
  - vm_compute. discriminate.
Qed.
End CenterFacts.

(** * Properties of the grid generator *)

Lemma copacabana_cos_nonzero :
  ~ @math_cos exact_float (@math_radians exact_float (-229711 # 10000)) == 0.
Proof. intros H. vm_compute in H. discriminate H. Qed.

Section GeneratorClaims.
Context {PF : PyFloat}.

(** C1. For a valid grid size and radius (and a center whose cosine is not
    zero, so that the longitude division is defined), [generate_geogrid]
    returns exactly [grid_size^2] points in row-major order: the point at
    index [k] has row [y = k / grid_size] and column [x = k mod grid_size];
    and [estimate_credits grid_size] is [grid_size^2], the number of points
    returned. *)
Theorem generate_geogrid_row_major
    (center_lat center_lng radius_km : Q) (grid_size : Z) :
  valid_grid_size grid_size -> valid_radius radius_km ->
  ~ math_cos (math_radians center_lat) == 0 ->
  exists points,
    generate_geogrid center_lat center_lng radius_km grid_size = Ok points
    /\ Z.of_nat (List.length points) = (grid_size ^ 2)%Z
    /\ (forall k, (0 <= k < grid_size ^ 2)%Z ->
          exists p, nth_error points (Z.to_nat k) = Some p
                    /\ y p = (k / grid_size)%Z /\ x p = (k mod grid_size)%Z)
    /\ estimate_credits grid_size = Ok (grid_size ^ 2)%Z
    /\ estimate_credits grid_size = Ok (Z.of_nat (List.length points)).
Proof.
  intros Hg Hr Hc.
  assert (Hn : (0 < grid_size)%Z)
    by (destruct (valid_grid_size_cases _ Hg) as [-> | [-> | ->]]; lia).
  assert (Hlen : forall f : Z -> Z -> GridPoint,
    Z.of_nat (List.length
      (flat_map (fun row => map (f row) (range grid_size)) (range grid_size)))
    = (grid_size ^ 2)%Z).
  { intros f. rewrite length_table by lia. symmetry. apply Z.pow_2_r. }
  assert (Hcred : estimate_credits grid_size = Ok (grid_size ^ 2)%Z).
  { unfold estimate_credits.
    apply valid_grid_size_existsb in Hg as ->. cbn [negb]. now rewrite Z.pow_2_r. }
  eexists. split; [ | split; [ | split; [ | split ] ] ].
  - apply generate_geogrid_ok; auto using meters_per_degree_lng_nonzero.
  - apply Hlen.
  - intros k Hk.
    exists (grid_point center_lat center_lng radius_km grid_size
              (k / grid_size) (k mod grid_size)).
    split; [ | split; reflexivity ].
    pose proof (Z.mod_pos_bound k grid_size Hn) as Hm.
    assert (Hd : (0 <= k / grid_size < grid_size)%Z).
    { split; [ apply Z.div_pos; lia | apply Z.div_lt_upper_bound; nia ]. }
    rewrite (Z.div_mod k grid_size) at 1 by lia.
    rewrite (Z.mul_comm grid_size).
    now apply nth_error_table.
  - exact Hcred.
  - rewrite Hlen. exact Hcred.
Qed.

(** C2. For a valid input, the point at row [r], column [c] (index
    [r * grid_size + c]) has
    [latitude = round(center_lat + (half - r) * step_m / 111111, 6)] and
    [longitude = round(center_lng + (c - half) * step_m /
                       (111111 * cos(radians(center_lat))), 6)],
    with [step_m = (radius_km * 2000) / (grid_size - 1)],
    [half = (grid_size - 1) / 2], and the meters per degree of longitude
    taken from the center latitude, the same for every row. *)
Theorem generate_geogrid_coordinates
    (center_lat center_lng radius_km : Q) (grid_size : Z) :
  valid_grid_size grid_size -> valid_radius radius_km ->
  ~ math_cos (math_radians center_lat) == 0 ->
  exists points,
    generate_geogrid center_lat center_lng radius_km grid_size = Ok points
    /\ forall r c, (0 <= r < grid_size)%Z -> (0 <= c < grid_size)%Z ->
         exists p, nth_error points (Z.to_nat (r * grid_size + c)) = Some p
           /\ y p = r /\ x p = c
           /\ latitude p
              = round_ndigits
                  (fadd center_lat
                     (rnd (fmul (fsub (half grid_size) (of_int r))
                                (step_m radius_km grid_size)
                           / of_int 111111))) 6
           /\ longitude p
              = round_ndigits
                  (fadd center_lng
                     (rnd (fmul (fsub (of_int c) (half grid_size))
                                (step_m radius_km grid_size)
                           / fmul (of_int 111111)
                                  (math_cos (math_radians center_lat))))) 6.
Proof.
  intros Hg Hr Hc. eexists. split.
  - apply generate_geogrid_ok; auto using meters_per_degree_lng_nonzero.
  - intros r c Hrow Hcol.
    exists (grid_point center_lat center_lng radius_km grid_size r c).
    split; [ now apply nth_error_table | repeat split ].
Qed.

(** C3. For a valid input whose center coordinates are floats, the point at
    row [(grid_size-1)/2], column [(grid_size-1)/2], which is the point of
    index [(grid_size^2 - 1)/2], has its latitude within [1e-4] degrees of
    [center_lat] and its longitude within [1e-4] degrees of [center_lng]. *)
Theorem generate_geogrid_center
    (center_lat center_lng radius_km : Q) (grid_size : Z) :
  valid_grid_size grid_size -> valid_radius radius_km ->
  rnd center_lat == center_lat -> rnd center_lng == center_lng ->
  ~ math_cos (math_radians center_lat) == 0 ->
  exists points p,
    generate_geogrid center_lat center_lng radius_km grid_size = Ok points
    /\ nth_error points (Z.to_nat ((grid_size ^ 2 - 1) / 2)) = Some p
    /\ y p = ((grid_size - 1) / 2)%Z /\ x p = ((grid_size - 1) / 2)%Z
    /\ Qabs (latitude p - center_lat) <= 1 # 10000
    /\ Qabs (longitude p - center_lng) <= 1 # 10000.
Proof.
  intros Hg Hr Hlat Hlng Hc.
  destruct (center_index _ Hg) as (Hi & Hh & _).
  exists (flat_map
            (fun row => map (grid_point center_lat center_lng radius_km grid_size row)
                            (range grid_size))
            (range grid_size)).
  exists (grid_point center_lat center_lng radius_km grid_size
            ((grid_size - 1) / 2) ((grid_size - 1) / 2)).
  split; [ | split; [ | split; [ | split; [ | split ] ] ] ].
  - apply generate_geogrid_ok; auto using meters_per_degree_lng_nonzero.
  - rewrite Hi. now apply nth_error_table.
  - reflexivity.
  - reflexivity.
  - cbn [latitude grid_point].
    rewrite (formula_latitude_center center_lat radius_km grid_size Hg Hlat).
    now apply round6_within_tolerance.
  - cbn [longitude grid_point].
    rewrite (formula_longitude_center center_lat center_lng radius_km grid_size Hg Hlng).
    now apply round6_within_tolerance.
Qed.
End GeneratorClaims.

Lemma generate_geogrid_row_major_witness :
  valid_grid_size 3 /\ valid_radius 2 /\
  exists points,
    copacabana = Ok points
    /\ Z.of_nat (List.length points) = (3 ^ 2)%Z
    /\ (forall k, (0 <= k < 3 ^ 2)%Z ->
          exists p, nth_error points (Z.to_nat k) = Some p
                    /\ y p = (k / 3)%Z /\ x p = (k mod 3)%Z)
    /\ @estimate_credits 3 = Ok (3 ^ 2)%Z
    /\ @estimate_credits 3 = Ok (Z.of_nat (List.length points)).
Proof.
  assert (Hg : valid_grid_size 3) by (left; reflexivity).
  assert (Hr : valid_radius 2) by (split; [ reflexivity | discriminate ]).
  split; [ exact Hg | split; [ exact Hr | ] ].
  apply (@generate_geogrid_row_major exact_float
           (-229711 # 10000) (-431825 # 10000) 2 3 Hg Hr).
  intros H. vm_compute in H. discriminate H.
Defined.

Lemma generate_geogrid_coordinates_witness :
  exists points,
    copacabana = Ok points
    /\ forall r c, (0 <= r < 3)%Z -> (0 <= c < 3)%Z ->
         exists p, nth_error points (Z.to_nat (r * 3 + c)) = Some p
           /\ y p = r /\ x p = c
           /\ latitude p
              = @formula_latitude exact_float (-229711 # 10000) 2 3 r
           /\ longitude p
              = @formula_longitude exact_float (-229711 # 10000) (-431825 # 10000) 2 3 c.
Proof.
  apply (@generate_geogrid_coordinates exact_float
           (-229711 # 10000) (-431825 # 10000) 2 3).
  - left; reflexivity.
  - split; [ reflexivity | discriminate ].
  - intros H. vm_compute in H. discriminate H.
Defined.

Lemma generate_geogrid_center_witness :
  exists points p,
    copacabana = Ok points
    /\ nth_error points 4 = Some p
    /\ y p = 1%Z /\ x p = 1%Z
    /\ Qabs (latitude p - (-229711 # 10000)) <= 1 # 10000
    /\ Qabs (longitude p - (-431825 # 10000)) <= 1 # 10000.
Proof.
  apply (@generate_geogrid_center exact_float
           (-229711 # 10000) (-431825 # 10000) 2 3).
  - left; reflexivity.
  - split; [ reflexivity | discriminate ].
  - reflexivity.
  - reflexivity.
  - intros H. vm_compute in H. discriminate H.
Defined.

Section GeneratorValidation.
Context {PF : PyFloat}.

(** On a finite center latitude, [generate_geogrid] raises a [ValueError]
    if and only if [grid_size] is not in {3, 5, 7}, or [radius_km <= 0], or
    [radius_km > 50]; on such an input no list of points is returned. *)
Lemma generate_geogrid_finite_errors
    (center_lat center_lng radius_km : Q) (grid_size : Z) :
  ((exists msg,
      generate_geogrid center_lat center_lng radius_km grid_size
      = Raise (ValueError msg))
   <-> (~ valid_grid_size grid_size \/ radius_km <= 0 \/ inject_Z 50 < radius_km))
  /\ ((~ valid_grid_size grid_size \/ radius_km <= 0 \/ inject_Z 50 < radius_km) ->
      forall points,
        generate_geogrid center_lat center_lng radius_km grid_size <> Ok points).
Proof.
  split.
  - split; [ | apply generate_geogrid_value_error ].
    intros (msg & E).
    destruct (valid_grid_size_dec grid_size) as [Hg | Hg]; [ | now left ].
    destruct (valid_radius_dec radius_km) as [Hr | Hr]; [ | now right ].
    exfalso.
    destruct (Qeq_dec (meters_per_degree_lng center_lat) 0) as [Hm | Hm].
    + rewrite (generate_geogrid_zero_division center_lat center_lng _ _ Hg Hr Hm) in E.
      discriminate E.
    + rewrite (generate_geogrid_ok center_lat center_lng _ _ Hg Hr Hm) in E.
      discriminate E.
  - intros H points E.
    destruct (generate_geogrid_value_error center_lat center_lng _ _ H) as (msg & E').
    congruence.
Qed.

(** On a finite center latitude [generate_geogrid_ext] is
    [generate_geogrid]. *)
Lemma generate_geogrid_ext_finite
    (center_lat center_lng radius_km : Q) (grid_size : Z) :
  generate_geogrid_ext (Finite center_lat) center_lng radius_km grid_size
  = generate_geogrid center_lat center_lng radius_km grid_size.
Proof.
  unfold generate_geogrid_ext, generate_geogrid.
  destruct (negb (existsb (Z.eqb grid_size) [3; 5; 7]%Z)); [ reflexivity | ].
  destruct (Qle_bool radius_km 0); [ reflexivity | ].
  destruct (Qltb (inject_Z 50) radius_km); reflexivity.
Qed.

Lemma generate_geogrid_ext_infinite
    (negative : bool) (center_lng radius_km : Q) (grid_size : Z) :
  exists msg,
    generate_geogrid_ext (Infinity negative) center_lng radius_km grid_size
    = Raise (ValueError msg).
Proof.
  unfold generate_geogrid_ext.
  destruct (negb (existsb (Z.eqb grid_size) [3; 5; 7]%Z)); [ eexists; reflexivity | ].
  destruct (Qle_bool radius_km 0); [ eexists; reflexivity | ].
  destruct (Qltb (inject_Z 50) radius_km); eexists; reflexivity.
Qed.

(** C6 (amended). [generate_geogrid] raises a [ValueError] whenever
    [grid_size] is not in {3, 5, 7}, or [radius_km <= 0], or
    [radius_km > 50], and then no list of points is returned; on a finite
    center latitude these are the only cases in which it raises a
    [ValueError]; the one other case is an infinite center latitude, on
    which [math.cos] raises [ValueError("math domain error")] after the
    three checks have passed. *)
Theorem generate_geogrid_value_error_iff
    (center_lat : xfloat) (center_lng radius_km : Q) (grid_size : Z) :
  ((exists msg,
      generate_geogrid_ext center_lat center_lng radius_km grid_size
      = Raise (ValueError msg))
   <-> (~ valid_grid_size grid_size \/ radius_km <= 0 \/ inject_Z 50 < radius_km
        \/ exists negative, center_lat = Infinity negative))
  /\ ((~ valid_grid_size grid_size \/ radius_km <= 0 \/ inject_Z 50 < radius_km) ->
      (exists msg,
         generate_geogrid_ext center_lat center_lng radius_km grid_size
         = Raise (ValueError msg))
      /\ forall points,
           generate_geogrid_ext center_lat center_lng radius_km grid_size
           <> Ok points)
  /\ (forall q, center_lat = Finite q ->
      generate_geogrid_ext center_lat center_lng radius_km grid_size
      = generate_geogrid q center_lng radius_km grid_size)
  /\ (valid_grid_size grid_size -> valid_radius radius_km ->
      (exists negative, center_lat = Infinity negative) ->
      generate_geogrid_ext center_lat center_lng radius_km grid_size
      = Raise (ValueError "math domain error")).
Proof.
  assert (Hinvalid :
    (~ valid_grid_size grid_size \/ radius_km <= 0 \/ inject_Z 50 < radius_km) ->
    exists msg,
      generate_geogrid_ext center_lat center_lng radius_km grid_size
      = Raise (ValueError msg)).
  { intros H. destruct center_lat as [ q | negative ].
    - rewrite generate_geogrid_ext_finite. now apply generate_geogrid_value_error.
    - apply generate_geogrid_ext_infinite. }
  split; [ | split; [ | split ] ].
  - split.
    + intros (msg & E). destruct center_lat as [ q | negative ].
      * rewrite generate_geogrid_ext_finite in E.
        assert (H : ~ valid_grid_size grid_size \/ radius_km <= 0
                    \/ inject_Z 50 < radius_km)
          by (apply (generate_geogrid_finite_errors q center_lng); eauto).
        destruct H as [ H | [ H | H ] ]; auto.
      * do 3 right. now exists negative.
    + intros [ H | [ H | [ H | (negative & ->) ] ] ]; auto.
      apply generate_geogrid_ext_infinite.
  - intros H. split; [ now apply Hinvalid | ].
    intros points E. destruct (Hinvalid H) as (msg & E'). congruence.
  - intros q ->. apply generate_geogrid_ext_finite.
  - intros Hg [Hr0 Hr50] (negative & ->). unfold generate_geogrid_ext.
    apply valid_grid_size_existsb in Hg. rewrite Hg. simpl negb. cbv iota.
    assert (E1 : Qle_bool radius_km 0 = false).
    { destruct (Qle_bool radius_km 0) eqn:E; [ | reflexivity ].
      apply Qle_bool_iff in E. lra. }
    assert (E2 : Qltb (inject_Z 50) radius_km = false) by now apply Qltb_false.
    now rewrite E1, E2.
Qed.

(** C10. The center is not validated: with a valid size and radius, for
    every [center_lat] whose cosine is not zero and every [center_lng], in
    the documented ranges or not, the call returns [grid_size^2] points;
    and the division by [111111 * cos(radians(center_lat))] is unguarded:
    when that cosine is zero the call raises [ZeroDivisionError]. *)
Theorem generate_geogrid_center_unchecked
    (center_lat center_lng radius_km : Q) (grid_size : Z) :
  valid_grid_size grid_size -> valid_radius radius_km ->
  (~ math_cos (math_radians center_lat) == 0 ->
   exists points,
     generate_geogrid center_lat center_lng radius_km grid_size = Ok points
     /\ Z.of_nat (List.length points) = (grid_size ^ 2)%Z)
  /\ (math_cos (math_radians center_lat) == 0 ->
      generate_geogrid center_lat center_lng radius_km grid_size
      = Raise ZeroDivisionError).
Proof.
  intros Hg Hr. split; intros Hc.
  - eexists. split.
    + apply generate_geogrid_ok; auto using meters_per_degree_lng_nonzero.
    + rewrite length_table, Z.pow_2_r; [ reflexivity | ].
      destruct (valid_grid_size_cases _ Hg) as [-> | [-> | ->]]; lia.
  - apply generate_geogrid_zero_division; auto using cos_zero_meters_zero.
Qed.

(** C9 (amended). Every point returned by [generate_geogrid] has the label
    [Ponto_{row}_{col}] formed from its 0-indexed row and column; a 3 x 3
    grid yields the labels [Ponto_0_0] through [Ponto_2_2] in row-major
    order. *)
Theorem generate_geogrid_labels
    (center_lat center_lng radius_km : Q) (grid_size : Z) :
  valid_grid_size grid_size -> valid_radius radius_km ->
  ~ math_cos (math_radians center_lat) == 0 ->
  exists points,
    generate_geogrid center_lat center_lng radius_km grid_size = Ok points
    /\ (forall p, In p points -> label p = ponto_label (y p) (x p))
    /\ (grid_size = 3%Z ->
        map label points
        = [ "Ponto_0_0"; "Ponto_0_1"; "Ponto_0_2";
            "Ponto_1_0"; "Ponto_1_1"; "Ponto_1_2";
            "Ponto_2_0"; "Ponto_2_1"; "Ponto_2_2" ]%string).
Proof.
  intros Hg Hr Hc. eexists. split; [ | split ].
  - apply generate_geogrid_ok; auto using meters_per_degree_lng_nonzero.
  - intros p Hp. apply in_flat_map in Hp as (r & _ & Hp).
    apply in_map_iff in Hp as (c & <- & _). reflexivity.
  - intros ->. reflexivity.
Qed.
End GeneratorValidation.

(** C6 as stated fails: with the valid size 3 and the valid radius 2, an
    infinite center latitude raises a [ValueError], that of [math.cos]. *)
Lemma infinite_latitude_raises :
  valid_grid_size 3 /\ valid_radius 2
  /\ @generate_geogrid_ext exact_float (Infinity false) (-431825 # 10000) 2 3
     = Raise (ValueError "math domain error").
Proof.
  split; [ left; reflexivity | split; [ | reflexivity ] ].
  split; [ reflexivity | discriminate ].
Qed.

(** The cases of the test suite: size 4, radius -1 and radius 100 are
    refused, radius 50 is accepted. *)
Example generate_geogrid_refuses_and_accepts :
  @generate_geogrid exact_float (-229711 # 10000) (-431825 # 10000) 2 4
  = Raise (ValueError "Grid size must be 3, 5, or 7")
  /\ @generate_geogrid exact_float (-229711 # 10000) (-431825 # 10000) (-1) 3
     = Raise (ValueError "Radius must be positive")
  /\ @generate_geogrid exact_float (-229711 # 10000) (-431825 # 10000) 100 3
     = Raise (ValueError "Radius must not exceed 50km for accurate calculations")
  /\ exists points,
       @generate_geogrid exact_float (-229711 # 10000) (-431825 # 10000) 50 3
       = Ok points
       /\ List.length points = 9%nat.
Proof.
  repeat split.
  destruct (@generate_geogrid exact_float (-229711 # 10000) (-431825 # 10000) 50 3)
    as [ points | e ] eqn:E; [ | vm_compute in E; discriminate E ].
  exists points. split; [ reflexivity | ].
  vm_compute in E. injection E as <-. reflexivity.
Qed.

Lemma generate_geogrid_center_unchecked_witness :
  (~ @math_cos exact_float (@math_radians exact_float (inject_Z 1000)) == 0 ->
   exists points,
     @generate_geogrid exact_float (inject_Z 1000) (inject_Z (-5000)) (inject_Z 50) 7
     = Ok points
     /\ Z.of_nat (List.length points) = (7 ^ 2)%Z)
  /\ (@math_cos exact_float (@math_radians exact_float (inject_Z 1000)) == 0 ->
      @generate_geogrid exact_float (inject_Z 1000) (inject_Z (-5000)) (inject_Z 50) 7
      = Raise ZeroDivisionError).
Proof.
  apply (@generate_geogrid_center_unchecked exact_float
           (inject_Z 1000) (inject_Z (-5000)) (inject_Z 50) 7).
  - right; right; left; reflexivity.
  - split; [ reflexivity | discriminate ].
Defined.

Lemma generate_geogrid_labels_witness :
  exists points,
    copacabana = Ok points
    /\ (forall p, In p points -> label p = ponto_label (y p) (x p))
    /\ (3%Z = 3%Z ->
        map label points
        = [ "Ponto_0_0"; "Ponto_0_1"; "Ponto_0_2";
            "Ponto_1_0"; "Ponto_1_1"; "Ponto_1_2";
            "Ponto_2_0"; "Ponto_2_1"; "Ponto_2_2" ]%string).
Proof.
  apply (@generate_geogrid_labels exact_float
           (-229711 # 10000) (-431825 # 10000) 2 3).
  - left; reflexivity.
  - split; [ reflexivity | discriminate ].
  - intros H. vm_compute in H. discriminate H.
Defined.

(** C9 as stated fails: the first point of the 3 x 3 grid is labelled
    [Ponto_0_0], which is not [Point_0_0]. *)
Lemma label_is_not_Point :
  exists points p,
    copacabana = Ok points
    /\ nth_error points 0 = Some p
    /\ y p = 0%Z /\ x p = 0%Z
    /\ label p = "Ponto_0_0"%string
    /\ spec_label (y p) (x p) = "Point_0_0"%string
    /\ label p <> spec_label (y p) (x p).
Proof.
  destruct copacabana as [ points | e ] eqn:E; [ | vm_compute in E; discriminate E ].
  destruct points as [ | p rest ]; [ vm_compute in E; discriminate E | ].
  exists (p :: rest), p.
  assert (Hp : label p = "Ponto_0_0"%string /\ y p = 0%Z /\ x p = 0%Z).
  { vm_compute in E. injection E as <- _. repeat split. }
  destruct Hp as (Hl & Hy & Hx).
  rewrite Hl, Hy, Hx.
  repeat split. intros H. discriminate H.
Qed.

(** * Properties of the stats aggregator *)

Lemma fold_left_add (zs : list Z) (a : Z) :
  fold_left Z.add zs a = (a + fold_right Z.add 0 zs)%Z.
Proof.
  revert a. induction zs as [ | z zs IH ]; intros a; simpl.
  - lia.
  - rewrite IH. lia.
Qed.

Lemma valid_ranks_present (ranks : list (option Z)) :
  flat_map (fun r : option Z => match r with Some v => [v] | None => [] end) ranks
  = present_ranks ranks.
Proof.
  induction ranks as [ | [ r | ] rest IH ]; simpl; congruence.
Qed.

Lemma present_ranks_nil (ranks : list (option Z)) :
  present_ranks ranks = [] <-> all_absent ranks.
Proof.
  unfold all_absent. induction ranks as [ | [ r | ] rest IH ]; simpl.
  - split; [ constructor | reflexivity ].
  - split; [ discriminate | ]. intros H. inversion H. discriminate.
  - rewrite IH. split.
    + intros H. now constructor.
    + intros H. now inversion H.
Qed.

Lemma present_ranks_map_Some (zs : list Z) : present_ranks (map Some zs) = zs.
Proof. induction zs; simpl; congruence. Qed.

Section AverageRank.
Context {PF : PyFloat}.

Lemma calculate_average_rank_present (ranks : list (option Z)) :
  present_ranks ranks <> [] ->
  calculate_average_rank ranks = Ok (Some (mean_formula ranks)).
Proof.
  intros Hne. unfold calculate_average_rank, mean_formula.
  rewrite valid_ranks_present.
  destruct (present_ranks ranks) as [ | z zs ] eqn:E; [ contradiction | ].
  unfold int_truediv.
  assert (Hl : (Z.of_nat (List.length (z :: zs)) =? 0)%Z = false)
    by (apply Z.eqb_neq; simpl; lia).
  rewrite Hl. cbn [bind]. rewrite fold_left_add. reflexivity.
Qed.

(** C5. [calculate_average_rank] returns the absent value exactly when every
    rank is absent, and otherwise the mean of the present rank values only,
    rounded to 2 decimals; absent ranks play no part (dropping them leaves
    the result unchanged, so no substitute value enters the mean).
    [average_rank([1,2,3,None,None])] is 2.0 and
    [average_rank([None,None])] is absent. *)
Theorem calculate_average_rank_spec (ranks : list (option Z)) :
  (calculate_average_rank ranks = Ok None <-> all_absent ranks)
  /\ (~ all_absent ranks ->
      calculate_average_rank ranks = Ok (Some (mean_formula ranks)))
  /\ calculate_average_rank ranks
     = calculate_average_rank (map Some (present_ranks ranks))
  /\ (exists m,
        calculate_average_rank [Some 1; Some 2; Some 3; None; None]%Z = Ok (Some m)
        /\ m == 2)
  /\ calculate_average_rank [None; None] = Ok None.
Proof.
  assert (Hsome : ~ all_absent ranks ->
            calculate_average_rank ranks = Ok (Some (mean_formula ranks))).
  { intros H. apply calculate_average_rank_present.
    intros E. apply H. now apply present_ranks_nil. }
  split; [ | split; [ exact Hsome | split; [ | split ] ] ].
  - split.
    + intros E. apply present_ranks_nil.
      destruct (present_ranks ranks) as [ | z zs ] eqn:Ep; [ reflexivity | ].
      rewrite calculate_average_rank_present in E by congruence.
      discriminate E.
    + intros H. apply present_ranks_nil in H.
      unfold calculate_average_rank. rewrite valid_ranks_present, H. reflexivity.
  - unfold calculate_average_rank.
    now rewrite !valid_ranks_present, present_ranks_map_Some.
  - eexists. split; [ apply calculate_average_rank_present; discriminate | ].
    unfold mean_formula. cbn [present_ranks fold_right List.length].
    assert (E : rnd (inject_Z (1 + (2 + (3 + 0))) / inject_Z (Z.of_nat 3))
                == inject_Z 2).
    { setoid_replace (inject_Z (1 + (2 + (3 + 0))) / inject_Z (Z.of_nat 3))
        with (inject_Z 2) by reflexivity.
      apply rnd_int. vm_compute. discriminate. }
    rewrite E. apply round_ndigits_int; [ lia | vm_compute; discriminate ].
  - reflexivity.
Qed.
End AverageRank.

(** *** The visibility score *)

Lemma rank_sum_all_rank_1 (ranks : list (option Z)) :
  all_rank_1 ranks -> rank_sum ranks = Z.of_nat (List.length ranks).
Proof.
  unfold all_rank_1, rank_sum. induction 1 as [ | r rest Hr _ IH ].
  - reflexivity.
  - subst r. cbn [map fold_right rank_or_20 List.length]. rewrite IH. lia.
Qed.

Lemma rank_sum_all_absent (ranks : list (option Z)) :
  all_absent ranks -> rank_sum ranks = (20 * Z.of_nat (List.length ranks))%Z.
Proof.
  unfold all_absent, rank_sum. induction 1 as [ | r rest Hr _ IH ].
  - reflexivity.
  - subst r. cbn [map fold_right rank_or_20 List.length]. rewrite IH. lia.
Qed.

Lemma positive_ranks_tail (r : option Z) (rest : list (option Z)) :
  positive_ranks (r :: rest) -> positive_ranks rest.
Proof. intros H z Hz. apply H. now right. Qed.

Lemma rank_sum_positive (ranks : list (option Z)) :
  positive_ranks ranks -> (Z.of_nat (List.length ranks) <= rank_sum ranks)%Z.
Proof.
  unfold rank_sum. induction ranks as [ | r rest IH ]; intros Hp.
  - reflexivity.
  - specialize (IH (positive_ranks_tail _ _ Hp)).
    cbn [map fold_right List.length].
    destruct r as [ z | ]; cbn [rank_or_20].
    + pose proof (Hp z (or_introl eq_refl)). lia.
    + lia.
Qed.

(** An absent rank costs 19 more than the best rank. *)
Lemma rank_sum_with_absent (ranks : list (option Z)) :
  positive_ranks ranks -> In None ranks ->
  (Z.of_nat (List.length ranks) + 19 <= rank_sum ranks)%Z.
Proof.
  unfold rank_sum. induction ranks as [ | r rest IH ]; intros Hp Hin.
  - destruct Hin.
  - pose proof (rank_sum_positive _ (positive_ranks_tail _ _ Hp)) as Hrest.
    unfold rank_sum in Hrest.
    cbn [map fold_right List.length].
    destruct r as [ z | ]; cbn [rank_or_20].
    + destruct Hin as [ Hin | Hin ]; [ discriminate | ].
      specialize (IH (positive_ranks_tail _ _ Hp) Hin).
      pose proof (Hp z (or_introl eq_refl)). lia.
    + lia.
Qed.

(** Ranks within the tracked window, one of them better than 20, sum to
    less than the worst total. *)
Lemma rank_sum_upto_20 (ranks : list (option Z)) :
  (forall r, In (Some r) ranks -> (r <= 20)%Z) ->
  (rank_sum ranks <= 20 * Z.of_nat (List.length ranks))%Z
  /\ ((exists r, In (Some r) ranks /\ (r < 20)%Z) ->
      (rank_sum ranks < 20 * Z.of_nat (List.length ranks))%Z).
Proof.
  unfold rank_sum. induction ranks as [ | r rest IH ]; intros Hb.
  - split; [ reflexivity | intros (r & [] & _) ].
  - destruct IH as [IH1 IH2]; [ intros z Hz; apply Hb; now right | ].
    cbn [map fold_right List.length].
    destruct r as [ z | ]; cbn [rank_or_20].
    + pose proof (Hb z (or_introl eq_refl)) as Hz. split; [ lia | ].
      intros (w & [Hw | Hw] & Hlt).
      * injection Hw as ->. lia.
      * assert (Hex : exists r, In (Some r) rest /\ (r < 20)%Z) by eauto.
        specialize (IH2 Hex). lia.
    + split; [ lia | ].
      intros (w & [Hw | Hw] & Hlt); [ discriminate | ].
      assert (Hex : exists r, In (Some r) rest /\ (r < 20)%Z) by eauto.
      specialize (IH2 Hex). lia.
Qed.

Lemma clamp_cases (s : Q) :
  (inject_Z 100 <= s /\ py_max (Int 0) (py_min (Int 100) (Float s)) = Int 100)
  \/ (s <= 0 /\ py_max (Int 0) (py_min (Int 100) (Float s)) = Int 0)
  \/ (0 < s < inject_Z 100
      /\ py_max (Int 0) (py_min (Int 100) (Float s)) = Float s).
Proof.
  unfold py_min, py_max. cbn [value].
  destruct (Qltb s (inject_Z 100)) eqn:E1; cbn [value].
  - apply Qltb_true in E1.
    destruct (Qltb (inject_Z 0) s) eqn:E2.
    + apply Qltb_true in E2. right; right. split; [ split | ]; auto.
    + apply Qltb_false in E2. right; left. split; auto.
  - apply Qltb_false in E1. left. split; auto.
Qed.

Lemma clamp_value (s : Q) :
  value (py_max (Int 0) (py_min (Int 100) (Float s))) == clamp 0 (inject_Z 100) s.
Proof.
  unfold clamp.
  destruct (clamp_cases s) as [ [H ->] | [ [H ->] | [ [H0 H100] ->] ] ]; cbn [value].
  - assert (E0 : Qltb s 0 = false) by (apply Qltb_false; change (inject_Z 100) with 100 in H; lra).
    rewrite E0.
    destruct (Qltb (inject_Z 100) s) eqn:E1; [ reflexivity | ].
    apply Qltb_false in E1. lra.
  - destruct (Qltb s 0) eqn:E0; [ reflexivity | ].
    apply Qltb_false in E0.
    assert (E1 : Qltb (inject_Z 100) s = false)
      by (apply Qltb_false; change (inject_Z 100) with 100; lra).
    rewrite E1. change (inject_Z 0) with 0. lra.
  - assert (E0 : Qltb s 0 = false) by (apply Qltb_false; lra).
    assert (E1 : Qltb (inject_Z 100) s = false) by (apply Qltb_false; lra).
    rewrite E0, E1. reflexivity.
Qed.

Lemma clamp_range (s : Q) :
  inject_Z 0 <= clamp 0 (inject_Z 100) s <= inject_Z 100.
Proof.
  unfold clamp. change (inject_Z 0) with 0. change (inject_Z 100) with 100.
  destruct (Qltb s 0) eqn:E0; [ lra | apply Qltb_false in E0 ].
  destruct (Qltb 100 s) eqn:E1; [ lra | apply Qltb_false in E1 ]. lra.
Qed.

Section Visibility.
Context {PF : PyFloat}.

Lemma rnd_inject_0 : rnd (inject_Z 0) == inject_Z 0.
Proof. apply rnd_int. vm_compute. discriminate. Qed.

Lemma rnd_inject_1 : rnd (inject_Z 1) == inject_Z 1.
Proof. apply rnd_int. vm_compute. discriminate. Qed.

Lemma rnd_inject_100 : rnd (inject_Z 100) == inject_Z 100.
Proof. apply rnd_int. vm_compute. discriminate. Qed.

Lemma of_int_100 : of_int 100 == 100.
Proof. apply rnd_inject_100. Qed.

Lemma spread_positive (n : Z) : n <> 0%Z -> (0 < n * n * 20 - n * n)%Z.
Proof. intros H. nia. Qed.

Lemma calculate_visibility_score_ok (ranks : list (option Z)) (grid_size : Z) :
  grid_size <> 0%Z ->
  calculate_visibility_score ranks grid_size
  = Ok (py_round
          (py_max (Int 0) (py_min (Int 100) (Float (raw_score ranks grid_size))))
          2).
Proof.
  intros Hn. unfold calculate_visibility_score, raw_score, int_truediv.
  pose proof (spread_positive grid_size Hn) as Hs.
  assert (E : (grid_size * grid_size * 20 - grid_size * grid_size =? 0)%Z = false)
    by (apply Z.eqb_neq; lia).
  rewrite E. cbn [bind]. rewrite fold_left_add, Z.add_0_l. reflexivity.
Qed.

Lemma calculate_visibility_score_zero (ranks : list (option Z)) :
  calculate_visibility_score ranks 0 = Raise ZeroDivisionError.
Proof. reflexivity. Qed.

Lemma py_round_clamped (s : Q) :
  value (py_round (py_max (Int 0) (py_min (Int 100) (Float s))) 2)
  == round_ndigits (clamp 0 (inject_Z 100) s) 2.
Proof.
  rewrite <- (clamp_value s).
  destruct (clamp_cases s) as [ [_ ->] | [ [_ ->] | [_ ->] ] ]; cbn [py_round value].
  - symmetry. apply round_ndigits_int; [ lia | vm_compute; discriminate ].
  - symmetry. apply round_ndigits_int; [ lia | vm_compute; discriminate ].
  - reflexivity.
Qed.

(** The best case and beyond: when the ranks sum to at most [total], the
    raw score is at least 100 and the result is the int 100. *)
Lemma raw_score_best (ranks : list (option Z)) (grid_size : Z) :
  grid_size <> 0%Z ->
  (rank_sum ranks <= grid_size * grid_size)%Z ->
  inject_Z 100 <= raw_score ranks grid_size.
Proof.
  intros Hn Hs. pose proof (spread_positive grid_size Hn) as Hb.
  unfold raw_score, fmul.
  set (a := (grid_size * grid_size * 20 - rank_sum ranks)%Z).
  set (b := (grid_size * grid_size * 20 - grid_size * grid_size)%Z) in *.
  assert (Hab : (b <= a)%Z) by (unfold a, b; lia).
  assert (Hq : inject_Z 1 <= rnd (inject_Z a / inject_Z b)).
  { apply rnd_ge_float; [ apply rnd_inject_1 | ].
    apply Qle_shift_div_l.
    - change 0 with (inject_Z 0). now rewrite <- Zlt_Qlt.
    - rewrite <- inject_Z_mult, <- Zle_Qle. lia. }
  apply rnd_ge_float; [ apply rnd_inject_100 | ].
  rewrite of_int_100. change (inject_Z 100) with 100.
  change (inject_Z 1) with 1 in Hq. lra.
Qed.

(** The worst case and beyond: when the ranks sum to at least [max_score],
    the raw score is at most 0. *)
Lemma raw_score_worst (ranks : list (option Z)) (grid_size : Z) :
  grid_size <> 0%Z ->
  (grid_size * grid_size * 20 <= rank_sum ranks)%Z ->
  raw_score ranks grid_size <= 0.
Proof.
  intros Hn Hs. pose proof (spread_positive grid_size Hn) as Hb.
  unfold raw_score, fmul.
  set (a := (grid_size * grid_size * 20 - rank_sum ranks)%Z).
  set (b := (grid_size * grid_size * 20 - grid_size * grid_size)%Z) in *.
  assert (Ha : (a <= 0)%Z) by (unfold a; lia).
  assert (Hq : rnd (inject_Z a / inject_Z b) <= 0).
  { apply (rnd_le_float _ (inject_Z 0)); [ apply rnd_inject_0 | ].
    apply Qle_shift_div_r.
    - change 0 with (inject_Z 0). now rewrite <- Zlt_Qlt.
    - rewrite <- inject_Z_mult, <- Zle_Qle. lia. }
  apply (rnd_le_float _ (inject_Z 0)); [ apply rnd_inject_0 | ].
  rewrite of_int_100. change (inject_Z 0) with 0. lra.
Qed.

Lemma clamped_best (s : Q) :
  inject_Z 100 <= s -> py_max (Int 0) (py_min (Int 100) (Float s)) = Int 100.
Proof.
  intros H. change (inject_Z 100) with 100 in H.
  destruct (clamp_cases s) as [ [_ E] | [ [H' _] | [ [_ H'] _ ] ] ];
    [ exact E | exfalso; lra | exfalso ].
  change (inject_Z 100) with 100 in H'. lra.
Qed.

Lemma clamped_worst (s : Q) :
  s <= 0 -> py_max (Int 0) (py_min (Int 100) (Float s)) = Int 0.
Proof.
  intros H.
  destruct (clamp_cases s) as [ [H' _] | [ [_ E] | [ [H' _] _ ] ] ];
    [ exfalso | exact E | exfalso; lra ].
  change (inject_Z 100) with 100 in H'. lra.
Qed.
End Visibility.

Section VisibilityClaims.
Context {PF : PyFloat}.

(** C4 (amended). For every rank sequence and every nonzero [grid_size],
    [calculate_visibility_score] returns
    [round(clamp(((total * 20 - rank_sum) / (total * 20 - total)) * 100,
    0, 100), 2)] with [total = grid_size^2] and [rank_sum] counting 20 for
    each absent rank; the result lies in [0, 100]; it is 100 when every rank
    is 1 and there are at most [grid_size^2] ranks, and 0 when every rank is
    absent and there are at least [grid_size^2] ranks (so in both cases for
    a sequence of exactly [grid_size^2] ranks). *)
Theorem calculate_visibility_score_spec (ranks : list (option Z)) (grid_size : Z) :
  grid_size <> 0%Z ->
  exists v,
    calculate_visibility_score ranks grid_size = Ok v
    /\ value v == visibility_formula ranks grid_size
    /\ inject_Z 0 <= value v <= inject_Z 100
    /\ (all_rank_1 ranks ->
        (Z.of_nat (List.length ranks) <= grid_size ^ 2)%Z -> v = Int 100)
    /\ (all_absent ranks ->
        (grid_size ^ 2 <= Z.of_nat (List.length ranks))%Z -> v = Int 0).
Proof.
  intros Hn. eexists. split; [ now apply calculate_visibility_score_ok | ].
  assert (Hf : value (py_round
                        (py_max (Int 0)
                           (py_min (Int 100) (Float (raw_score ranks grid_size)))) 2)
               == visibility_formula ranks grid_size).
  { rewrite py_round_clamped. unfold visibility_formula, raw_score.
    cbv zeta. rewrite Z.pow_2_r. reflexivity. }
  split; [ exact Hf | split; [ | split ] ].
  - rewrite py_round_clamped.
    apply round_ndigits_bounds;
      [ lia | apply rnd_inject_0 | apply rnd_inject_100 | apply clamp_range ].
  - intros H1 Hlen. rewrite Z.pow_2_r in Hlen.
    rewrite clamped_best; [ reflexivity | ].
    apply raw_score_best; [ assumption | ].
    rewrite (rank_sum_all_rank_1 _ H1). exact Hlen.
  - intros Ha Hlen. rewrite Z.pow_2_r in Hlen.
    rewrite clamped_worst; [ reflexivity | ].
    apply raw_score_worst; [ assumption | ].
    rewrite (rank_sum_all_absent _ Ha). lia.
Qed.

(** C7 (amended). An invalid [grid_size] raises a [ValueError] in the grid
    generator ([generate_geogrid], [estimate_credits]).  The stats
    aggregator does not validate [grid_size]: [calculate_visibility_score]
    and [calculate_scan_stats] never raise a [ValueError], and for every
    nonzero [grid_size], valid or not, they return a result. *)
Theorem invalid_grid_size_errors (grid_size : Z) :
  ~ valid_grid_size grid_size ->
  (forall center_lat center_lng radius_km, exists msg,
      generate_geogrid center_lat center_lng radius_km grid_size
      = Raise (ValueError msg))
  /\ (exists msg, estimate_credits grid_size = Raise (ValueError msg))
  /\ (forall ranks msg,
        calculate_visibility_score ranks grid_size <> Raise (ValueError msg)
        /\ calculate_scan_stats ranks grid_size <> Raise (ValueError msg))
  /\ (grid_size <> 0%Z ->
      forall ranks, exists v st,
        calculate_visibility_score ranks grid_size = Ok v
        /\ calculate_scan_stats ranks grid_size = Ok st
        /\ visibility_score st = v
        /\ total_points st = (grid_size * grid_size)%Z).
Proof.
  intros Hg.
  assert (Harp : forall ranks, exists a, calculate_average_rank ranks = Ok a).
  { intros ranks.
    destruct (present_ranks ranks) as [ | z zs ] eqn:E.
    - exists None. unfold calculate_average_rank.
      rewrite valid_ranks_present, E. reflexivity.
    - eexists. apply calculate_average_rank_present. congruence. }
  split; [ | split; [ | split ] ].
  - intros. apply generate_geogrid_value_error. now left.
  - unfold estimate_credits.
    destruct (existsb (Z.eqb grid_size) [3; 5; 7]%Z) eqn:E.
    + apply valid_grid_size_existsb in E. contradiction.
    + eexists. reflexivity.
  - intros ranks msg.
    destruct (Harp ranks) as (a & Ha).
    unfold calculate_scan_stats. rewrite Ha. cbn [bind].
    destruct (Z.eq_dec grid_size 0) as [ -> | Hn ].
    + rewrite calculate_visibility_score_zero. split; discriminate.
    + rewrite (calculate_visibility_score_ok ranks grid_size Hn).
      split; discriminate.
  - intros Hn ranks.
    destruct (Harp ranks) as (a & Ha).
    unfold calculate_scan_stats.
    rewrite Ha, (calculate_visibility_score_ok ranks grid_size Hn). cbn [bind].
    eexists. eexists. repeat split.
Qed.
End VisibilityClaims.

Lemma calculate_visibility_score_spec_witness :
  exists v,
    @calculate_visibility_score exact_float (repeat (Some 1%Z) 9) 3 = Ok v
    /\ value v == @visibility_formula exact_float (repeat (Some 1%Z) 9) 3
    /\ inject_Z 0 <= value v <= inject_Z 100
    /\ (all_rank_1 (repeat (Some 1%Z) 9) ->
        (Z.of_nat (List.length (repeat (Some 1%Z) 9)) <= 3 ^ 2)%Z -> v = Int 100)
    /\ (all_absent (repeat (Some 1%Z) 9) ->
        (3 ^ 2 <= Z.of_nat (List.length (repeat (Some 1%Z) 9)))%Z -> v = Int 0).
Proof.
  apply (@calculate_visibility_score_spec exact_float (repeat (Some 1%Z) 9) 3).
  discriminate.
Defined.

(** C4 as stated fails outside the aggregator's contract: with
    [grid_size = 0] the division is by zero and nothing is returned; ten
    ranks of 1 on a 3 x 3 grid score 99.42, not 100; a single absent rank on
    a 3 x 3 grid scores 93.57, not 0. *)
Lemma visibility_score_outside_contract :
  @calculate_visibility_score exact_float [] 0 = Raise ZeroDivisionError
  /\ (all_rank_1 (repeat (Some 1%Z) 10)
      /\ @calculate_visibility_score exact_float (repeat (Some 1%Z) 10) 3
         = Ok (Float (4971 # 50)))
  /\ (all_absent [None]
      /\ @calculate_visibility_score exact_float [None] 3
         = Ok (Float (9357 # 100))).
Proof.
  split; [ reflexivity | split; split ].
  - repeat constructor.
  - vm_compute. reflexivity.
  - repeat constructor.
  - vm_compute. reflexivity.
Qed.

Lemma invalid_grid_size_errors_witness :
  (forall center_lat center_lng radius_km, exists msg,
      @generate_geogrid exact_float center_lat center_lng radius_km 4
      = Raise (ValueError msg))
  /\ (exists msg, estimate_credits 4 = Raise (ValueError msg))
  /\ (forall ranks msg,
        @calculate_visibility_score exact_float ranks 4 <> Raise (ValueError msg)
        /\ @calculate_scan_stats exact_float ranks 4 <> Raise (ValueError msg))
  /\ (4%Z <> 0%Z ->
      forall ranks, exists v st,
        @calculate_visibility_score exact_float ranks 4 = Ok v
        /\ @calculate_scan_stats exact_float ranks 4 = Ok st
        /\ visibility_score st = v
        /\ total_points st = (4 * 4)%Z).
Proof.
  apply (@invalid_grid_size_errors exact_float 4).
  intros H. apply valid_grid_size_cases in H. lia.
Defined.

(** C7 as stated fails: with the invalid [grid_size = 2] the aggregator
    returns a score and the statistics; no error is raised. *)
Lemma stats_accept_invalid_grid_size :
  ~ valid_grid_size 2
  /\ @calculate_visibility_score exact_float (repeat (Some 1%Z) 4) 2 = Ok (Int 100)
  /\ @calculate_scan_stats exact_float (repeat (Some 1%Z) 4) 2
     = Ok {| arp := Some 1; top3 := 4; top10 := 4;
             visibility_score := Int 100; total_points := 4 |}.
Proof.
  split; [ | split ].
  - intros H. apply valid_grid_size_cases in H. lia.
  - vm_compute. reflexivity.
  - vm_compute. reflexivity.
Qed.

(** *** Mixed sequences *)

Section MixedFacts.
Context {PF : PyFloat}.

(** One rounding of a number that is not tiny changes it by less than one
    part in a thousand. *)
Lemma rnd_coarse (a : Q) :
  (1 # 1000000) <= a ->
  a * (999 # 1000) <= rnd a <= a * (1001 # 1000).
Proof.
  intros Ha.
  assert (Hm : min_normal <= a).
  { apply Qle_trans with (1 # 1000000); [ | exact Ha ].
    vm_compute. discriminate. }
  pose proof (rnd_rel_pos a Hm) as [Hlo Hhi].
  assert (Hu : 0 <= unit_roundoff <= 1 # 1000).
  { split; vm_compute; discriminate. }
  generalize dependent unit_roundoff. intros u Hlo Hhi Hu.
  assert (Hau : 0 <= a * u) by (apply Qmult_le_0_compat; lra).
  assert (Hau' : a * u <= a * (1 # 1000)).
  { rewrite (Qmult_comm a u), (Qmult_comm a (1 # 1000)).
    apply Qmult_le_compat_r; lra. }
  split; lra.
Qed.

Lemma raw_score_mixed (ranks : list (option Z)) (grid_size : Z) :
  (0 < grid_size * grid_size <= 49)%Z ->
  (grid_size * grid_size + 19 <= rank_sum ranks)%Z ->
  (rank_sum ranks < grid_size * grid_size * 20)%Z ->
  (1 # 10) <= raw_score ranks grid_size <= 99.
Proof.
  intros Ht Hlo Hhi. unfold raw_score, fmul.
  set (a := (grid_size * grid_size * 20 - rank_sum ranks)%Z).
  set (b := (grid_size * grid_size * 20 - grid_size * grid_size)%Z).
  assert (Ha1 : (1 <= a)%Z) by (unfold a; lia).
  assert (Hab : (a + 19 <= b)%Z) by (unfold a, b; lia).
  assert (Hb : (b <= 931)%Z) by (unfold b; lia).
  rewrite Zle_Qle in Ha1, Hab, Hb. rewrite inject_Z_plus in Hab.
  change (inject_Z 1) with 1 in Ha1. change (inject_Z 19) with 19 in Hab.
  change (inject_Z 931) with 931 in Hb.
  assert (Hq : (1 # 931) <= inject_Z a / inject_Z b <= 48 # 49).
  { generalize dependent (inject_Z a). generalize dependent (inject_Z b).
    intros qb Hb qa Ha1 Hab.
    split; [ apply Qle_shift_div_l | apply Qle_shift_div_r ]; lra. }
  generalize dependent (inject_Z a / inject_Z b). intros q Hq.
  assert (H1 : q * (999 # 1000) <= rnd q <= q * (1001 # 1000))
    by (apply rnd_coarse; lra).
  rewrite of_int_100.
  assert (H2 : rnd q * 100 * (999 # 1000) <= rnd (rnd q * 100)
               <= rnd q * 100 * (1001 # 1000))
    by (apply rnd_coarse; lra).
  lra.
Qed.

Lemma round2_mixed (s : Q) :
  (1 # 10) <= s <= 99 -> 0 < round_ndigits s 2 < 100.
Proof.
  intros Hs. unfold round_ndigits.
  pose proof (round_half_even_close (s * pow10 2)) as Hc.
  apply Qabs_Qle_condition in Hc.
  change (pow10 2) with 100 in *.
  generalize dependent (inject_Z (round_half_even (s * 100))). intros k Hc.
  assert (Hd : (19 # 200) <= k / 100 <= 9901 # 100).
  { split; [ apply Qle_shift_div_l | apply Qle_shift_div_r ]; lra. }
  generalize dependent (k / 100). intros d Hd.
  assert (H : d * (999 # 1000) <= rnd d <= d * (1001 # 1000))
    by (apply rnd_coarse; lra).
  lra.
Qed.
End MixedFacts.

Section MixedClaims.
Context {PF : PyFloat}.

(** C8 (amended). For a valid [grid_size] and a mixed sequence of
    [grid_size^2] positive ranks, [calculate_visibility_score] returns a
    value that is at least 0 and strictly less than 100; it is strictly
    greater than 0 exactly when the ranks, an absent one counting 20, sum to
    less than [20 * grid_size^2] -- in particular when every present rank
    is at most 20 and one of them is below 20. *)
Theorem mixed_visibility_score (ranks : list (option Z)) (grid_size : Z) :
  valid_grid_size grid_size ->
  Z.of_nat (List.length ranks) = (grid_size ^ 2)%Z ->
  mixed ranks -> positive_ranks ranks ->
  exists v,
    calculate_visibility_score ranks grid_size = Ok v
    /\ 0 <= value v /\ value v < 100
    /\ (0 < value v <-> (rank_sum ranks < 20 * grid_size ^ 2)%Z)
    /\ ((forall r, In (Some r) ranks -> (r <= 20)%Z) ->
        (exists r, In (Some r) ranks /\ (r < 20)%Z) ->
        0 < value v).
Proof.
  intros Hg Hlen [_ Habs] Hpos. rewrite Z.pow_2_r in *.
  assert (Ht : (0 < grid_size * grid_size <= 49)%Z)
    by (destruct (valid_grid_size_cases _ Hg) as [-> | [-> | ->]]; lia).
  assert (Hn : grid_size <> 0%Z) by lia.
  pose proof (rank_sum_with_absent ranks Hpos Habs) as Hsum.
  rewrite Hlen in Hsum.
  assert (Hcases :
    exists v, calculate_visibility_score ranks grid_size = Ok v
      /\ 0 <= value v /\ value v < 100
      /\ (0 < value v <-> (rank_sum ranks < 20 * (grid_size * grid_size))%Z)).
  { eexists. split; [ now apply calculate_visibility_score_ok | ].
    destruct (Z_lt_le_dec (rank_sum ranks) (grid_size * grid_size * 20))
      as [ Hlt | Hge ].
    - pose proof (raw_score_mixed ranks grid_size Ht Hsum Hlt) as Hs.
      pose proof (round2_mixed _ Hs) as Hr.
      destruct (clamp_cases (raw_score ranks grid_size))
        as [ [H _] | [ [H _] | [_ ->] ] ].
      + exfalso. change (inject_Z 100) with 100 in H. lra.
      + exfalso. lra.
      + cbn [py_round value]. repeat split; try lra. intros _. lia.
    - rewrite clamped_worst by now apply raw_score_worst.
      cbn [py_round value]. change (inject_Z 0) with 0.
      repeat split; try lra.
      intros H. exfalso. lia. }
  destruct Hcases as (v & Hv & H0 & H100 & Hiff).
  exists v. repeat split; try assumption; try apply Hiff.
  intros Hb Hex. apply Hiff.
  destruct (rank_sum_upto_20 ranks Hb) as [_ Hlt].
  specialize (Hlt Hex). rewrite Hlen in Hlt. exact Hlt.
Qed.
End MixedClaims.

Lemma mixed_visibility_score_witness :
  exists v,
    @calculate_visibility_score exact_float
      [Some 1; Some 2; Some 3; Some 5; Some 8; Some 10; Some 15; None; None]%Z 3
    = Ok v
    /\ 0 <= value v /\ value v < 100
    /\ (0 < value v
        <-> (rank_sum
               [Some 1; Some 2; Some 3; Some 5; Some 8; Some 10; Some 15; None; None]
             < 20 * 3 ^ 2)%Z)
    /\ ((forall r,
           In (Some r)
              [Some 1; Some 2; Some 3; Some 5; Some 8; Some 10; Some 15; None; None]%Z ->
           (r <= 20)%Z) ->
        (exists r,
           In (Some r)
              [Some 1; Some 2; Some 3; Some 5; Some 8; Some 10; Some 15; None; None]%Z
           /\ (r < 20)%Z) ->
        0 < value v).
Proof.
  apply (@mixed_visibility_score exact_float
           [Some 1; Some 2; Some 3; Some 5; Some 8; Some 10; Some 15; None; None]%Z 3).
  - left; reflexivity.
  - reflexivity.
  - split; [ exists 1%Z; left; reflexivity | ].
    do 7 right. left. reflexivity.
  - intros r H. simpl in H.
    repeat (destruct H as [ H | H ]; [ try discriminate H; injection H as <-; lia | ]).
    destruct H.
Defined.

(** C8 as stated fails: the 3 x 3 sequence with rank 20 at one point and no
    rank at the others is mixed, and its score is 0. *)
Lemma mixed_score_can_be_zero :
  mixed (Some 20%Z :: repeat None 8)
  /\ positive_ranks (Some 20%Z :: repeat None 8)
  /\ Z.of_nat (List.length (Some 20%Z :: repeat None 8)) = (3 ^ 2)%Z
  /\ @calculate_visibility_score exact_float (Some 20%Z :: repeat None 8) 3
     = Ok (Int 0)
  /\ ~ 0 < value (Int 0).
Proof.
  split; [ | split; [ | split; [ | split ] ] ].
  - split; [ exists 20%Z; left; reflexivity | right; left; reflexivity ].
  - intros r H. simpl in H.
    repeat (destruct H as [ H | H ]; [ try discriminate H; injection H as <-; lia | ]).
    destruct H.
  - reflexivity.
  - vm_compute. reflexivity.
  - intros H. vm_compute in H. discriminate H.
Qed.

(** * Further properties of the aggregator *)

Lemma count_top3_green (ranks : list (option Z)) :
  count_top3 ranks = count_color green ranks.
Proof.
  unfold count_top3, count_color. do 2 f_equal.
  apply filter_ext. intros [ r | ]; [ | reflexivity ].
  unfold get_rank_color.
  destruct (Z.ltb_spec 10 r), (Z.leb_spec r 3); try reflexivity; lia.
Qed.

Lemma filter_length_split {A : Type} (f g h : A -> bool) (l : list A) :
  (forall a, f a = (g a || h a) /\ (g a && h a) = false) ->
  (List.length (filter f l)
   = List.length (filter g l) + List.length (filter h l))%nat.
Proof.
  intros H. induction l as [ | a l IH ]; [ reflexivity | ].
  destruct (H a) as [Hf Hgh]. simpl. rewrite Hf.
  destruct (g a), (h a); simpl in *; rewrite IH; try lia; discriminate.
Qed.

Lemma filter_length_complement {A : Type} (g h : A -> bool) (l : list A) :
  (forall a, h a = negb (g a)) ->
  (List.length (filter g l) + List.length (filter h l) = List.length l)%nat.
Proof.
  intros H. induction l as [ | a l IH ]; [ reflexivity | ].
  simpl. rewrite (H a). destruct (g a); simpl; lia.
Qed.

(** X1. The counts agree with the colours: [count_top3] counts the green
    observations, [count_top10] the green and the yellow ones, and the red
    ones are the rest of the sequence. *)
Theorem counts_by_color (ranks : list (option Z)) :
  count_top3 ranks = count_color green ranks
  /\ count_top10 ranks = (count_color green ranks + count_color yellow ranks)%Z
  /\ (count_top10 ranks + count_color red ranks = Z.of_nat (List.length ranks))%Z.
Proof.
  split; [ apply count_top3_green | split ].
  - unfold count_top10, count_color. rewrite <- Nat2Z.inj_add. f_equal.
    apply filter_length_split.
    intros [ r | ]; unfold get_rank_color; simpl.
    + destruct (Z.ltb_spec 10 r), (Z.leb_spec r 3), (Z.leb_spec r 10);
        simpl; try lia; split; reflexivity.
    + split; reflexivity.
  - unfold count_top10, count_color. rewrite <- Nat2Z.inj_add. f_equal.
    apply filter_length_complement.
    intros [ r | ]; unfold get_rank_color; [ | reflexivity ].
    destruct (Z.ltb_spec 10 r), (Z.leb_spec r 3), (Z.leb_spec r 10);
      simpl; try lia; reflexivity.
Qed.

Lemma filter_length_mono {A : Type} (f g : A -> bool) (l : list A) :
  (forall a, f a = true -> g a = true) ->
  (List.length (filter f l) <= List.length (filter g l))%nat.
Proof.
  intros H. induction l as [ | a l IH ]; [ reflexivity | ].
  specialize (H a). simpl.
  destruct (f a), (g a); simpl; try lia.
Qed.

Lemma present_ranks_length (ranks : list (option Z)) :
  List.length (present_ranks ranks)
  = List.length (filter (fun r : option Z => match r with Some _ => true | None => false end)
                        ranks).
Proof.
  induction ranks as [ | [ r | ] rest IH ]; simpl; congruence.
Qed.

Lemma count_top3_le_top10 (ranks : list (option Z)) :
  (0 <= count_top3 ranks <= count_top10 ranks)%Z.
Proof.
  unfold count_top3, count_top10. split; [ lia | ].
  apply inj_le, filter_length_mono.
  intros [ r | ] H; [ | discriminate ].
  apply Z.leb_le in H. apply Z.leb_le. lia.
Qed.

Lemma count_top10_le_length (ranks : list (option Z)) :
  (count_top10 ranks <= Z.of_nat (List.length ranks))%Z.
Proof.
  unfold count_top10. apply inj_le, List.filter_length_le.
Qed.

(** X2. The counts are ordered: [0 <= count_top3 <= count_top10], and
    [count_top10] is at most the number of present ranks, itself at most
    the length of the sequence; an absent rank is never counted. *)
Theorem counts_ordered (ranks : list (option Z)) :
  (0 <= count_top3 ranks <= count_top10 ranks)%Z
  /\ (count_top10 ranks <= Z.of_nat (List.length (present_ranks ranks)))%Z
  /\ (List.length (present_ranks ranks) <= List.length ranks)%nat
  /\ (all_absent ranks -> count_top3 ranks = 0%Z /\ count_top10 ranks = 0%Z).
Proof.
  assert (H310 : (count_top3 ranks <= count_top10 ranks)%Z).
  { unfold count_top3, count_top10. apply inj_le, filter_length_mono.
    intros [ r | ] H; [ | discriminate ].
    apply Z.leb_le in H. apply Z.leb_le. lia. }
  assert (H10p : (count_top10 ranks <= Z.of_nat (List.length (present_ranks ranks)))%Z).
  { unfold count_top10. rewrite present_ranks_length.
    apply inj_le, filter_length_mono. intros [ r | ] H; [ reflexivity | discriminate ]. }
  split; [ split; [ unfold count_top3; lia | exact H310 ] | ].
  split; [ exact H10p | split ].
  - rewrite present_ranks_length. apply List.filter_length_le.
  - intros Ha. apply present_ranks_nil in Ha. rewrite Ha in H10p. simpl in H10p.
    unfold count_top3, count_top10 in *. lia.
Qed.

(** *** Order of the observations *)

Lemma sum_permutation (l l' : list Z) :
  Permutation l l' -> fold_right Z.add 0%Z l = fold_right Z.add 0%Z l'.
Proof.
  induction 1; simpl; lia.
Qed.

Lemma present_ranks_permutation (ranks ranks' : list (option Z)) :
  Permutation ranks ranks' ->
  Permutation (present_ranks ranks) (present_ranks ranks').
Proof.
  induction 1 as [ | r l l' _ IH | r r' l | l l' l'' _ IH1 _ IH2 ].
  - constructor.
  - destruct r; simpl; [ now constructor | assumption ].
  - destruct r, r'; simpl; try reflexivity. apply perm_swap.
  - now transitivity (present_ranks l').
Qed.

Lemma filter_length_permutation {A : Type} (f : A -> bool) (l l' : list A) :
  Permutation l l' -> List.length (filter f l) = List.length (filter f l').
Proof.
  induction 1 as [ | a l l' _ IH | a b l | l l' l'' _ IH1 _ IH2 ]; simpl.
  - reflexivity.
  - destruct (f a); simpl; congruence.
  - destruct (f a), (f b); reflexivity.
  - congruence.
Qed.

Section OrderFacts.
Context {PF : PyFloat}.

Lemma calculate_average_rank_permutation (ranks ranks' : list (option Z)) :
  Permutation ranks ranks' ->
  calculate_average_rank ranks = calculate_average_rank ranks'.
Proof.
  intros H. apply present_ranks_permutation in H.
  unfold calculate_average_rank. rewrite !valid_ranks_present.
  pose proof (Permutation_length H) as Hlen.
  pose proof (sum_permutation _ _ H) as Hsum.
  destruct (present_ranks ranks) as [ | z zs ], (present_ranks ranks') as [ | z' zs' ];
    try discriminate Hlen; [ reflexivity | ].
  rewrite !fold_left_add, Hsum, Hlen. reflexivity.
Qed.

Lemma calculate_visibility_score_permutation
    (ranks ranks' : list (option Z)) (grid_size : Z) :
  Permutation ranks ranks' ->
  calculate_visibility_score ranks grid_size
  = calculate_visibility_score ranks' grid_size.
Proof.
  intros H. unfold calculate_visibility_score.
  rewrite !fold_left_add.
  rewrite (sum_permutation _ _ (Permutation_map _ H)). reflexivity.
Qed.

(** X3. The order of the observations is irrelevant: a permutation of the
    rank sequence leaves the average rank, both counts, the visibility
    score and the whole [ScanStats] unchanged. *)
Theorem scan_stats_permutation
    (ranks ranks' : list (option Z)) (grid_size : Z) :
  Permutation ranks ranks' ->
  calculate_average_rank ranks = calculate_average_rank ranks'
  /\ count_top3 ranks = count_top3 ranks'
  /\ count_top10 ranks = count_top10 ranks'
  /\ calculate_visibility_score ranks grid_size
     = calculate_visibility_score ranks' grid_size
  /\ calculate_scan_stats ranks grid_size = calculate_scan_stats ranks' grid_size.
Proof.
  intros H.
  pose proof (calculate_average_rank_permutation _ _ H) as Ha.
  pose proof (calculate_visibility_score_permutation _ _ grid_size H) as Hv.
  assert (H3 : count_top3 ranks = count_top3 ranks')
    by (unfold count_top3; now rewrite (filter_length_permutation _ _ _ H)).
  assert (H10 : count_top10 ranks = count_top10 ranks')
    by (unfold count_top10; now rewrite (filter_length_permutation _ _ _ H)).
  repeat split; try assumption.
  unfold calculate_scan_stats. now rewrite Ha, Hv, H3, H10.
Qed.

Lemma sum_between (lo hi : Z) (zs : list Z) :
  (forall z, In z zs -> (lo <= z <= hi)%Z) ->
  (lo * Z.of_nat (List.length zs) <= fold_right Z.add 0 zs
   <= hi * Z.of_nat (List.length zs))%Z.
Proof.
  induction zs as [ | z zs IH ]; intros H.
  - simpl. lia.
  - specialize (IH (fun w Hw => H w (or_intror Hw))).
    pose proof (H z (or_introl eq_refl)).
    cbn [fold_right List.length]. lia.
Qed.

Lemma In_present_ranks (ranks : list (option Z)) (z : Z) :
  In z (present_ranks ranks) <-> In (Some z) ranks.
Proof.
  induction ranks as [ | [ r | ] rest IH ]; simpl.
  - reflexivity.
  - rewrite IH. split; intros [ H | H ]; auto; left; congruence.
  - rewrite IH. split; [ auto | intros [ H | H ]; [ discriminate | assumption ] ].
Qed.

(** X4. The average rank lies between the best and the worst present rank:
    when every present rank is between [lo] and [hi] and one rank is
    present, [calculate_average_rank] returns a value in [lo, hi] (ranks
    within 1..20 give an average within 1..20, equal ranks give that rank). *)
Theorem average_rank_between (ranks : list (option Z)) (lo hi : Z) :
  (Z.abs lo <= 2 ^ 53)%Z -> (Z.abs hi <= 2 ^ 53)%Z ->
  (forall r, In (Some r) ranks -> (lo <= r <= hi)%Z) ->
  ~ all_absent ranks ->
  exists m,
    calculate_average_rank ranks = Ok (Some m)
    /\ inject_Z lo <= m <= inject_Z hi.
Proof.
  intros Hlo Hhi Hb Hne.
  assert (Hp : present_ranks ranks <> [])
    by (intros E; apply Hne; now apply present_ranks_nil).
  exists (mean_formula ranks).
  split; [ now apply calculate_average_rank_present | ].
  unfold mean_formula.
  pose proof (sum_between lo hi (present_ranks ranks)) as Hs.
  destruct Hs as [Hs1 Hs2]; [ intros z Hz; apply Hb; now apply In_present_ranks | ].
  set (total := fold_right Z.add 0%Z (present_ranks ranks)) in *.
  set (n := Z.of_nat (List.length (present_ranks ranks))) in *.
  assert (Hn : (0 < n)%Z).
  { unfold n. destruct (present_ranks ranks); [ contradiction | simpl; lia ]. }
  assert (Hq : 0 < inject_Z n)
    by (change 0 with (inject_Z 0); now rewrite <- Zlt_Qlt).
  apply round_ndigits_bounds; [ lia | now apply rnd_int | now apply rnd_int | ].
  split.
  - apply rnd_ge_float; [ now apply rnd_int | ].
    apply Qle_shift_div_l; [ exact Hq | ].
    now rewrite <- inject_Z_mult, <- Zle_Qle.
  - apply rnd_le_float; [ now apply rnd_int | ].
    apply Qle_shift_div_r; [ exact Hq | ].
    now rewrite <- inject_Z_mult, <- Zle_Qle.
Qed.

(** X5. A scan without observations: for a nonzero [grid_size] the empty
    sequence gives no average rank, counts of 0 and the visibility score
    100. *)
Theorem scan_stats_empty (grid_size : Z) :
  grid_size <> 0%Z ->
  calculate_scan_stats [] grid_size
  = Ok {| arp := None; top3 := 0; top10 := 0;
          visibility_score := Int 100;
          total_points := (grid_size * grid_size)%Z |}.
Proof.
  intros Hn. unfold calculate_scan_stats.
  change (calculate_average_rank []) with (@Ok (option Q) None). cbn [bind].
  rewrite (calculate_visibility_score_ok [] grid_size Hn). cbn [bind].
  rewrite clamped_best; [ reflexivity | ].
  apply raw_score_best; [ assumption | ].
  change (rank_sum []) with 0%Z. nia.
Qed.

Lemma rank_sum_as_20 (ranks : list (option Z)) :
  rank_sum (map (fun r => Some (rank_or_20 r)) ranks) = rank_sum ranks.
Proof.
  unfold rank_sum. rewrite map_map. reflexivity.
Qed.

(** X6. For the visibility score an absent rank is the rank 20: replacing
    every absent rank by a present rank 20 leaves the result unchanged. *)
Theorem visibility_score_absent_as_20 (ranks : list (option Z)) (grid_size : Z) :
  calculate_visibility_score (map (fun r => Some (rank_or_20 r)) ranks) grid_size
  = calculate_visibility_score ranks grid_size.
Proof.
  pose proof (rank_sum_as_20 ranks) as H. unfold rank_sum in H.
  unfold calculate_visibility_score.
  rewrite !fold_left_add.
  change (fun rank : option Z => match rank with Some r => r | None => 20%Z end)
    with rank_or_20.
  now rewrite H.
Qed.

(** X7. The score saturates: for a nonzero [grid_size], ranks that sum to
    at most [grid_size^2] give exactly 100 and ranks that sum (an absent one
    counting 20) to at least [20 * grid_size^2] give exactly 0, so ranks
    beyond 20 or a sequence longer than the grid never give a negative
    score. *)
Theorem visibility_score_saturates (ranks : list (option Z)) (grid_size : Z) :
  grid_size <> 0%Z ->
  ((rank_sum ranks <= grid_size ^ 2)%Z ->
   calculate_visibility_score ranks grid_size = Ok (Int 100))
  /\ ((20 * grid_size ^ 2 <= rank_sum ranks)%Z ->
      calculate_visibility_score ranks grid_size = Ok (Int 0)).
Proof.
  intros Hn. rewrite Z.pow_2_r.
  rewrite (calculate_visibility_score_ok ranks grid_size Hn).
  split; intros H.
  - rewrite clamped_best; [ reflexivity | now apply raw_score_best ].
  - rewrite clamped_worst; [ reflexivity | apply raw_score_worst; [ assumption | lia ] ].
Qed.
End OrderFacts.

Lemma scan_stats_permutation_witness :
  @calculate_average_rank exact_float [Some 1; None; Some 3]%Z
  = @calculate_average_rank exact_float [None; Some 3; Some 1]%Z
  /\ count_top3 [Some 1; None; Some 3]%Z = count_top3 [None; Some 3; Some 1]%Z
  /\ count_top10 [Some 1; None; Some 3]%Z = count_top10 [None; Some 3; Some 1]%Z
  /\ @calculate_visibility_score exact_float [Some 1; None; Some 3]%Z 3
     = @calculate_visibility_score exact_float [None; Some 3; Some 1]%Z 3
  /\ @calculate_scan_stats exact_float [Some 1; None; Some 3]%Z 3
     = @calculate_scan_stats exact_float [None; Some 3; Some 1]%Z 3.
Proof.
  apply (@scan_stats_permutation exact_float).
  exact (Permutation_cons_append [None; Some 3%Z] (Some 1%Z)).
Defined.

Lemma average_rank_between_witness :
  exists m,
    @calculate_average_rank exact_float [Some 1; Some 20; None; Some 7]%Z = Ok (Some m)
    /\ inject_Z 1 <= m <= inject_Z 20.
Proof.
  apply (@average_rank_between exact_float [Some 1; Some 20; None; Some 7]%Z 1 20).
  - vm_compute. discriminate.
  - vm_compute. discriminate.
  - intros r H. simpl in H.
    repeat (destruct H as [ H | H ]; [ try discriminate H; injection H as <-; lia | ]).
    destruct H.
  - intros H. inversion H. discriminate.
Defined.

Lemma scan_stats_empty_witness :
  @calculate_scan_stats exact_float [] 5
  = Ok {| arp := None; top3 := 0; top10 := 0;
          visibility_score := Int 100;
          total_points := (5 * 5)%Z |}.
Proof.
  apply (@scan_stats_empty exact_float 5). discriminate.
Defined.

Lemma visibility_score_saturates_witness :
  ((rank_sum [Some 25; Some 30; None]%Z <= 1 ^ 2)%Z ->
   @calculate_visibility_score exact_float [Some 25; Some 30; None]%Z 1 = Ok (Int 100))
  /\ ((20 * 1 ^ 2 <= rank_sum [Some 25; Some 30; None]%Z)%Z ->
      @calculate_visibility_score exact_float [Some 25; Some 30; None]%Z 1 = Ok (Int 0)).
Proof.
  apply (@visibility_score_saturates exact_float [Some 25; Some 30; None]%Z 1).
  discriminate.
Defined.

(** * Further properties of the grid generator *)

Section GeneratorExtras.
Context {PF : PyFloat}.

(** X8. The checks of [generate_geogrid] come in a fixed order, each with
    its own message: an invalid size is reported first, whatever the
    radius; with a valid size a radius [<= 0] is reported as not positive
    and a radius [> 50] as exceeding 50 km. *)
Theorem generate_geogrid_error_messages
    (center_lat center_lng radius_km : Q) (grid_size : Z) :
  (~ valid_grid_size grid_size ->
   generate_geogrid center_lat center_lng radius_km grid_size
   = Raise (ValueError "Grid size must be 3, 5, or 7"))
  /\ (valid_grid_size grid_size -> radius_km <= 0 ->
      generate_geogrid center_lat center_lng radius_km grid_size
      = Raise (ValueError "Radius must be positive"))
  /\ (valid_grid_size grid_size -> inject_Z 50 < radius_km ->
      generate_geogrid center_lat center_lng radius_km grid_size
      = Raise (ValueError "Radius must not exceed 50km for accurate calculations")).
Proof.
  unfold generate_geogrid.
  destruct (existsb (Z.eqb grid_size) [3; 5; 7]%Z) eqn:Eg; simpl negb; cbv iota.
  - apply valid_grid_size_existsb in Eg.
    split; [ intros H; contradiction | split; intros _ H ].
    + apply Qle_bool_iff in H. now rewrite H.
    + destruct (Qle_bool radius_km 0) eqn:E0.
      * apply Qle_bool_iff in E0. change (inject_Z 50) with 50 in H. lra.
      * apply Qltb_true in H. now rewrite H.
  - split; [ reflexivity | split; intros H; exfalso ];
      apply valid_grid_size_existsb in H; congruence.
Qed.

(** X9. The grid is axis-aligned: two points of the same row have the same
    latitude and two points of the same column have the same longitude. *)
Theorem generate_geogrid_aligned
    (center_lat center_lng radius_km : Q) (grid_size : Z) :
  valid_grid_size grid_size -> valid_radius radius_km ->
  ~ math_cos (math_radians center_lat) == 0 ->
  exists points,
    generate_geogrid center_lat center_lng radius_km grid_size = Ok points
    /\ forall p q, In p points -> In q points ->
         (y p = y q -> latitude p = latitude q)
         /\ (x p = x q -> longitude p = longitude q).
Proof.
  intros Hg Hr Hc. eexists. split.
  - apply generate_geogrid_ok; auto using meters_per_degree_lng_nonzero.
  - intros p q Hp Hq.
    apply in_flat_map in Hp as (r1 & _ & Hp). apply in_map_iff in Hp as (c1 & <- & _).
    apply in_flat_map in Hq as (r2 & _ & Hq). apply in_map_iff in Hq as (c2 & <- & _).
    cbn [x y latitude longitude grid_point].
    split; intros ->; reflexivity.
Qed.

Lemma table_cells (n : Z) (f : Z -> Z -> GridPoint) :
  (forall r c, y (f r c) = r /\ x (f r c) = c) ->
  map (fun p => (y p, x p))
      (flat_map (fun row => map (f row) (range n)) (range n))
  = flat_map (fun row => map (fun col => (row, col)) (range n)) (range n).
Proof.
  intros Hf. rewrite flat_map_concat_map, concat_map, map_map.
  rewrite flat_map_concat_map. f_equal.
  apply map_ext. intros r. rewrite map_map.
  apply map_ext. intros c. destruct (Hf r c) as [-> ->]. reflexivity.
Qed.

Lemma table_labels (n : Z) (f : Z -> Z -> GridPoint) :
  (forall r c, label (f r c) = ponto_label r c) ->
  map label (flat_map (fun row => map (f row) (range n)) (range n))
  = flat_map (fun row => map (ponto_label row) (range n)) (range n).
Proof.
  intros Hf. rewrite flat_map_concat_map, concat_map, map_map.
  rewrite flat_map_concat_map. f_equal.
  apply map_ext. intros r. rewrite map_map.
  apply map_ext. intros c. apply Hf.
Qed.

Lemma NoDup_by_nodup {A : Type} (dec : forall a b : A, {a = b} + {a <> b})
    (l : list A) :
  nodup dec l = l -> NoDup l.
Proof. intros <-. apply NoDup_nodup. Qed.

Lemma cell_dec (a b : Z * Z) : {a = b} + {a <> b}.
Proof. decide equality; apply Z.eq_dec. Defined.

(** X10. Every cell of the grid appears once: the points have their row
    and column in [0, grid_size), no two points share a (row, column) pair,
    and no two points share a label. *)
Theorem generate_geogrid_cells_unique
    (center_lat center_lng radius_km : Q) (grid_size : Z) :
  valid_grid_size grid_size -> valid_radius radius_km ->
  ~ math_cos (math_radians center_lat) == 0 ->
  exists points,
    generate_geogrid center_lat center_lng radius_km grid_size = Ok points
    /\ (forall p, In p points ->
          (0 <= y p < grid_size)%Z /\ (0 <= x p < grid_size)%Z)
    /\ NoDup (map (fun p => (y p, x p)) points)
    /\ NoDup (map label points).
Proof.
  intros Hg Hr Hc. eexists. split; [ | split; [ | split ] ].
  - apply generate_geogrid_ok; auto using meters_per_degree_lng_nonzero.
  - intros p Hp.
    apply in_flat_map in Hp as (r & Hrow & Hp).
    apply in_map_iff in Hp as (c & <- & Hcol).
    apply In_range in Hrow. apply In_range in Hcol. now split.
  - rewrite table_cells by (intros; split; reflexivity).
    apply (NoDup_by_nodup cell_dec).
    destruct (valid_grid_size_cases _ Hg) as [-> | [-> | ->]];
      vm_compute; reflexivity.
  - rewrite table_labels by reflexivity.
    apply (NoDup_by_nodup string_dec).
    destruct (valid_grid_size_cases _ Hg) as [-> | [-> | ->]];
      vm_compute; reflexivity.
Qed.
End GeneratorExtras.

Lemma generate_geogrid_aligned_witness :
  exists points,
    copacabana = Ok points
    /\ forall p q, In p points -> In q points ->
         (y p = y q -> latitude p = latitude q)
         /\ (x p = x q -> longitude p = longitude q).
Proof.
  apply (@generate_geogrid_aligned exact_float
           (-229711 # 10000) (-431825 # 10000) 2 3).
  - left; reflexivity.
  - split; [ reflexivity | discriminate ].
  - intros H. vm_compute in H. discriminate H.
Defined.

Lemma generate_geogrid_cells_unique_witness :
  exists points,
    copacabana = Ok points
    /\ (forall p, In p points -> (0 <= y p < 3)%Z /\ (0 <= x p < 3)%Z)
    /\ NoDup (map (fun p => (y p, x p)) points)
    /\ NoDup (map label points).
Proof.
  apply (@generate_geogrid_cells_unique exact_float
           (-229711 # 10000) (-431825 # 10000) 2 3).
  - left; reflexivity.
  - split; [ reflexivity | discriminate ].
  - intros H. vm_compute in H. discriminate H.
Defined.

(** * Heatmap colours *)

(** X11. The hex colour of the heatmap and the colour name of the API
    classify every rank alike: red is [#ef4444], green is [#22c55e] and
    yellow is [#eab308]. *)
Theorem rank_color_hex_agrees (rank : option Z) :
  (get_rank_color rank = red <-> get_rank_color_hex rank = "#ef4444"%string)
  /\ (get_rank_color rank = green <-> get_rank_color_hex rank = "#22c55e"%string)
  /\ (get_rank_color rank = yellow <-> get_rank_color_hex rank = "#eab308"%string).
Proof.
  unfold get_rank_color, get_rank_color_hex.
  destruct rank as [ r | ];
    [ destruct (10 <? r)%Z; [ | destruct (r <=? 3)%Z ] | ];
    repeat split; intros H; try reflexivity; discriminate H.
Qed.

(** * Matching a business in the SERP results *)

Section SerpFacts.
Variable str_lower : string -> string.

Lemma find_from_some (results : list dict) (business_lower : string) (idx k : Z) :
  find_from str_lower idx results business_lower = Returned (Some k)
  <-> exists item,
        (idx + 1 <= k)%Z
        /\ nth_error results (Z.to_nat (k - idx - 1)) = Some item
        /\ item_matches str_lower business_lower item = Returned true
        /\ forall j other, (j < Z.to_nat (k - idx - 1))%nat ->
             nth_error results j = Some other ->
             item_matches str_lower business_lower other = Returned false.
Proof.
  revert idx. induction results as [ | item rest IH ]; intros idx; cbn [find_from].
  - split; [ discriminate | ].
    intros (it & _ & Hn & _). destruct (Z.to_nat (k - idx - 1)); discriminate Hn.
  - destruct (item_matches str_lower business_lower item) as [ [ | ] | ] eqn:Em.
    + split.
      * intros E. injection E as <-. exists item.
        replace (idx + 1 - idx - 1)%Z with 0%Z by lia.
        repeat split; [ lia | assumption | intros j other Hj; inversion Hj ].
      * intros (it & Hk & Hn & Hm & Hbefore). do 2 f_equal.
        destruct (Z.to_nat (k - idx - 1)) as [ | j ] eqn:Ej; [ lia | ].
        specialize (Hbefore 0%nat item (Nat.lt_0_succ j) eq_refl). congruence.
    + rewrite IH. split.
      * intros (it & Hk & Hn & Hm & Hbefore). exists it.
        replace (Z.to_nat (k - idx - 1)) with (S (Z.to_nat (k - (idx + 1) - 1))) by lia.
        repeat split; [ lia | assumption | assumption | ].
        intros [ | j ] other Hj Hnth; [ injection Hnth as <-; assumption | ].
        apply (Hbefore j); [ lia | assumption ].
      * intros (it & Hk & Hn & Hm & Hbefore).
        destruct (Z.to_nat (k - idx - 1)) as [ | j ] eqn:Ej.
        { injection Hn as <-. congruence. }
        exists it.
        replace (Z.to_nat (k - (idx + 1) - 1)) with j by lia.
        repeat split; [ lia | assumption | assumption | ].
        intros i other Hi Hnth. apply (Hbefore (S i)); [ lia | assumption ].
    + split; [ discriminate | ].
      intros (it & Hk & Hn & Hm & Hbefore).
      destruct (Z.to_nat (k - idx - 1)) as [ | j ] eqn:Ej.
      * injection Hn as <-. congruence.
      * specialize (Hbefore 0%nat item (Nat.lt_0_succ j) eq_refl). congruence.
Qed.

Lemma find_from_none (results : list dict) (business_lower : string) (idx : Z) :
  find_from str_lower idx results business_lower = Returned None
  <-> Forall (fun item => item_matches str_lower business_lower item = Returned false)
             results.
Proof.
  revert idx. induction results as [ | item rest IH ]; intros idx; cbn [find_from].
  - split; [ constructor | reflexivity ].
  - destruct (item_matches str_lower business_lower item) as [ [ | ] | ] eqn:Em.
    + split; [ discriminate | intros H; inversion H; congruence ].
    + rewrite IH. split; [ now constructor | intros H; now inversion H ].
    + split; [ discriminate | intros H; inversion H; congruence ].
Qed.

Lemma find_business_first_match_aux
    (results : list dict) (business_name : string) (k : Z) :
  _find_business_in_results str_lower results business_name = Returned (Some k) ->
  (1 <= k <= Z.of_nat (List.length results))%Z.
Proof.
  unfold _find_business_in_results. intros H.
  apply find_from_some in H as (item & Hk & Hn & _).
  assert (Hlt : (Z.to_nat (k - 0 - 1) < List.length results)%nat).
  { apply nth_error_Some. congruence. }
  lia.
Qed.

(** X12. [_find_business_in_results] returns the 1-indexed position of the
    first match: it returns [k] exactly when the result at position [k]
    (index [k - 1]) has the lowered business name inside its lowered title
    or name, and every result before it has string fields and does not
    match. *)
Theorem find_business_first_match
    (results : list dict) (business_name : string) (k : Z) :
  _find_business_in_results str_lower results business_name = Returned (Some k)
  <-> exists item,
        (1 <= k)%Z
        /\ nth_error results (Z.to_nat (k - 1)) = Some item
        /\ item_matches str_lower (str_lower business_name) item = Returned true
        /\ forall j other, (j < Z.to_nat (k - 1))%nat ->
             nth_error results j = Some other ->
             item_matches str_lower (str_lower business_name) other
             = Returned false.
Proof.
  unfold _find_business_in_results. rewrite find_from_some.
  replace (k - 0 - 1)%Z with (k - 1)%Z by lia. reflexivity.
Qed.

(** X13. [_find_business_in_results] returns [None] exactly when every
    result has string fields and none matches; in particular on an empty
    result list.  A position it returns is at most the number of results. *)
Theorem find_business_none_iff (results : list dict) (business_name : string) :
  (_find_business_in_results str_lower results business_name = Returned None
   <-> Forall (fun item =>
                 item_matches str_lower (str_lower business_name) item
                 = Returned false) results)
  /\ _find_business_in_results str_lower [] business_name = Returned None
  /\ (forall k,
        _find_business_in_results str_lower results business_name
        = Returned (Some k) ->
        (1 <= k <= Z.of_nat (List.length results))%Z).
Proof.
  split; [ apply find_from_none | split; [ reflexivity | ] ].
  intros k H. apply find_business_first_match_aux in H. exact H.
Qed.
End SerpFacts.

Section SerpEdges.
Variable str_lower : string -> string.

Lemma find_from_error (results : list dict) (business_lower : string) (idx : Z) :
  find_from str_lower idx results business_lower = AttributeError
  <-> exists j item,
        nth_error results j = Some item
        /\ item_matches str_lower business_lower item = AttributeError
        /\ forall i other, (i < j)%nat -> nth_error results i = Some other ->
             item_matches str_lower business_lower other = Returned false.
Proof.
  revert idx. induction results as [ | item rest IH ]; intros idx; cbn [find_from].
  - split; [ discriminate | ].
    intros (j & it & Hn & _). destruct j; discriminate Hn.
  - destruct (item_matches str_lower business_lower item) as [ [ | ] | ] eqn:Em.
    + split; [ discriminate | ].
      intros ([ | j ] & it & Hn & He & Hbefore).
      * injection Hn as <-. congruence.
      * specialize (Hbefore 0%nat item (Nat.lt_0_succ j) eq_refl). congruence.
    + rewrite IH. split.
      * intros (j & it & Hn & He & Hbefore). exists (S j), it.
        repeat split; [ assumption | assumption | ].
        intros [ | i ] other Hi Hnth; [ injection Hnth as <-; assumption | ].
        apply (Hbefore i); [ lia | assumption ].
      * intros ([ | j ] & it & Hn & He & Hbefore).
        { injection Hn as <-. congruence. }
        exists j, it. repeat split; [ assumption | assumption | ].
        intros i other Hi Hnth. apply (Hbefore (S i)); [ lia | assumption ].
    + split; [ intros _ | reflexivity ].
      exists 0%nat, item. repeat split; [ assumption | ].
      intros i other Hi. inversion Hi.
Qed.

Lemma str_in_empty (s : string) : str_in "" s = true.
Proof. destruct s; reflexivity. Qed.

(** X14. An empty business name matches anything: when [str.lower] maps the
    empty string to itself, a search for the empty name returns position 1
    as soon as the first result has string (or missing) title and name,
    whatever they are. *)
Theorem find_business_empty_name (item : dict) (rest : list dict) :
  str_lower "" = ""%string ->
  (exists b, item_matches str_lower "" item = Returned b) ->
  _find_business_in_results str_lower (item :: rest) "" = Returned (Some 1%Z).
Proof.
  intros Hl (b & Hb). unfold _find_business_in_results. rewrite Hl.
  cbn [find_from].
  unfold item_matches in *.
  destruct (lower str_lower (dict_get item "title" (JStr ""))) as [ title | ];
    [ | discriminate Hb ].
  destruct (lower str_lower (dict_get item "name" (JStr ""))) as [ name | ];
    [ | discriminate Hb ].
  now rewrite !str_in_empty.
Qed.

(** X15. [_find_business_in_results] fails with [AttributeError] exactly
    when, before any match, it meets a result whose title or name is present
    and is not a string -- even if the other field of that result matches,
    both fields being lowered before the test. *)
Theorem find_business_attribute_error
    (results : list dict) (business_name : string) :
  (_find_business_in_results str_lower results business_name = AttributeError
   <-> exists j item,
         nth_error results j = Some item
         /\ item_matches str_lower (str_lower business_name) item = AttributeError
         /\ forall i other, (i < j)%nat -> nth_error results i = Some other ->
              item_matches str_lower (str_lower business_name) other
              = Returned false)
  /\ (forall item business_lower,
        item_matches str_lower business_lower item = AttributeError
        <-> (forall s, dict_get item "title" (JStr "") <> JStr s)
            \/ (forall s, dict_get item "name" (JStr "") <> JStr s)).
Proof.
  split; [ apply find_from_error | ].
  intros item business_lower. unfold item_matches, lower.
  destruct (dict_get item "title" (JStr "")) as [ | | | | t | | ];
    destruct (dict_get item "name" (JStr "")) as [ | | | | n | | ];
    split; intros H;
    try reflexivity; try discriminate H;
    try (left; intros s; discriminate);
    try (right; intros s; discriminate).
  destruct H as [ H | H ]; [ destruct (H t) | destruct (H n) ]; reflexivity.
Qed.
End SerpEdges.

Lemma find_business_empty_name_witness :
  _find_business_in_results lower_ascii
    ([("title"%string, JStr "Pizzaria Roma")] :: [[("name"%string, JStr "Outro")]]) ""
  = Returned (Some 1%Z).
Proof.
  apply (find_business_empty_name lower_ascii).
  - reflexivity.
  - exists true. reflexivity.
Defined.

(** The lookup is case-insensitive and positions are 1-indexed. *)
Example find_business_example :
  _find_business_in_results lower_ascii
    [ [("title"%string, JStr "Padaria Central")];
      [("name"%string, JStr "PIZZARIA ROMA - Centro"); ("title"%string, JStr "Mapa")];
      [("title"%string, JStr "Pizzaria Roma")] ]
    "Pizzaria roma"
  = Returned (Some 2%Z).
Proof. reflexivity. Qed.

(** * Batching of the grid search *)

Lemma ceil_div_bounds (n b : nat) :
  (0 < b)%nat ->
  ((n + b - 1) / b * b < n + b)%nat /\ (n <= (n + b - 1) / b * b)%nat.
Proof.
  intros Hb.
  pose proof (Nat.div_mod_eq (n + b - 1) b) as E.
  pose proof (Nat.mod_upper_bound (n + b - 1) b) as Hm.
  specialize (Hm ltac:(lia)). nia.
Qed.

Lemma range_step_batches (n : nat) (batch_size : Z) :
  (0 < batch_size)%Z ->
  range_step 0 (Z.of_nat n) batch_size
  = Ok (map (fun k => (Z.of_nat k * batch_size)%Z)
            (seq 0 ((n + Z.to_nat batch_size - 1) / Z.to_nat batch_size))).
Proof.
  intros Hb. unfold range_step.
  assert (E0 : (batch_size =? 0)%Z = false) by (apply Z.eqb_neq; lia).
  assert (E1 : (0 <? batch_size)%Z = true) by (apply Z.ltb_lt; lia).
  rewrite E0, E1. f_equal.
  assert (Ec : Z.to_nat ((Z.of_nat n - 0 + batch_size - 1) / batch_size)
               = ((n + Z.to_nat batch_size - 1) / Z.to_nat batch_size)%nat).
  { remember (Z.to_nat batch_size) as bn eqn:Ebn.
    assert (Eb : batch_size = Z.of_nat bn) by lia.
    rewrite Eb.
    replace (Z.of_nat n - 0 + Z.of_nat bn - 1)%Z
      with (Z.of_nat (n + bn - 1)) by lia.
    rewrite <- Nat2Z.inj_div. apply Nat2Z.id. }
  rewrite Ec. apply map_ext. intros k. lia.
Qed.

Lemma firstn_min_length {A : Type} (a : nat) (l : list A) :
  firstn (Nat.min a (List.length l)) l = firstn a l.
Proof.
  destruct (Nat.le_ge_cases a (List.length l)) as [ H | H ].
  - now rewrite Nat.min_l.
  - rewrite Nat.min_r by assumption. now rewrite !firstn_all2 by lia.
Qed.

Lemma py_slice_batch {A : Type} (l : list A) (k : nat) (batch_size : Z) :
  (0 < batch_size)%Z ->
  py_slice l (Z.of_nat k * batch_size) (Z.of_nat k * batch_size + batch_size)
  = firstn (Z.to_nat batch_size) (skipn (k * Z.to_nat batch_size) l).
Proof.
  intros Hb. unfold py_slice. cbv zeta.
  set (i := (Z.of_nat k * batch_size)%Z).
  assert (Hi : (0 <= i)%Z) by (unfold i; nia).
  assert (E0 : (i <? 0)%Z = false) by (apply Z.ltb_ge; lia).
  assert (E1 : (i + batch_size <? 0)%Z = false) by (apply Z.ltb_ge; lia).
  rewrite E0, E1.
  assert (Ei : Z.to_nat i = (k * Z.to_nat batch_size)%nat) by (unfold i; nia).
  destruct (Z.le_gt_cases i (Z.of_nat (List.length l))) as [ H | H ].
  - rewrite (Z.min_l i) by assumption. rewrite Ei.
    rewrite <- (firstn_min_length (Z.to_nat batch_size)).
    rewrite length_skipn. f_equal. lia.
  - rewrite !Z.min_r by lia.
    rewrite Z.sub_diag, Nat2Z.id. simpl firstn.
    rewrite (skipn_all2 l) by lia. now rewrite firstn_nil.
Qed.

Lemma firstn_plus {A : Type} (a b : nat) (l : list A) :
  firstn (a + b) l = firstn a l ++ firstn b (skipn a l).
Proof.
  revert l. induction a as [ | a IH ]; intros l; [ reflexivity | ].
  destruct l as [ | h t ]; simpl.
  - now rewrite firstn_nil.
  - now rewrite IH.
Qed.

Lemma concat_batches_from {A : Type} (size : nat) (l : list A) (a m : nat) :
  List.concat (map (fun k => firstn size (skipn (k * size) l)) (seq a m))
  = firstn (m * size) (skipn (a * size) l).
Proof.
  revert a. induction m as [ | m IH ]; intros a; [ reflexivity | ].
  cbn [seq map List.concat]. rewrite IH.
  replace (S m * size)%nat with (size + m * size)%nat by lia.
  rewrite firstn_plus, skipn_skipn.
  do 3 f_equal.
Qed.

Lemma concat_batches {A : Type} (size : nat) (l : list A) :
  (0 < size)%nat -> List.concat (batches size l) = l.
Proof.
  intros Hs. unfold batches. rewrite concat_batches_from. simpl skipn.
  apply firstn_all2. apply (ceil_div_bounds (List.length l) size Hs).
Qed.

Lemma batches_sizes {A : Type} (size : nat) (l : list A) :
  (0 < size)%nat ->
  Forall (fun b => (1 <= List.length b <= size)%nat) (batches size l).
Proof.
  intros Hs. unfold batches. apply Forall_forall. intros b Hb.
  apply in_map_iff in Hb as (k & <- & Hk). apply in_seq in Hk.
  destruct (ceil_div_bounds (List.length l) size Hs) as [Hlt _].
  rewrite length_firstn, length_skipn. nia.
Qed.

Section GridSearchFacts.
Variable settings : Settings.
Variable fetch_rank_at_point : GridPoint -> string -> string -> string -> RankResult.

Lemma not_last_batch (n k : nat) (batch_size : Z) :
  (0 < batch_size)%Z ->
  (k < (n + Z.to_nat batch_size - 1) / Z.to_nat batch_size)%nat ->
  (Z.of_nat k * batch_size + batch_size <? Z.of_nat n)%Z
  = (S k <? (n + Z.to_nat batch_size - 1) / Z.to_nat batch_size)%nat.
Proof.
  intros Hb Hk.
  destruct (ceil_div_bounds n (Z.to_nat batch_size)) as [H1 H2]; [ lia | ].
  set (total := ((n + Z.to_nat batch_size - 1) / Z.to_nat batch_size)%nat) in *.
  destruct (Nat.ltb_spec (S k) total) as [ H | H ].
  - apply Z.ltb_lt. nia.
  - apply Z.ltb_ge. nia.
Qed.

Lemma search_loop (points : list GridPoint) (business_name keyword key : string)
    (batch_size : Z) (delay : Q) (m a : nat)
    (results : list RankResult) (trace : list event) :
  (0 < batch_size)%Z ->
  (a + m
   = (List.length points + Z.to_nat batch_size - 1) / Z.to_nat batch_size)%nat ->
  for_in (map (fun k => (Z.of_nat k * batch_size)%Z) (seq a m))
    (fun i st =>
       let batch := py_slice points i (i + batch_size) in
       let batch_results :=
         map (fun point => fetch_rank_at_point point business_name keyword key) batch in
       let results := fst st ++ batch_results in
       let trace := snd st ++ [Gather batch] in
       if (i + batch_size <? Z.of_nat (List.length points))%Z
       then Ok (results, trace ++ [Sleep delay])
       else Ok (results, trace))
    (results, trace)
  = Ok (results
        ++ map (fun point => fetch_rank_at_point point business_name keyword key)
             (List.concat
                (map (fun k => firstn (Z.to_nat batch_size)
                                 (skipn (k * Z.to_nat batch_size) points))
                     (seq a m))),
        trace
        ++ flat_map
             (fun k =>
                Gather (firstn (Z.to_nat batch_size)
                          (skipn (k * Z.to_nat batch_size) points))
                :: (if (S k <? (List.length points + Z.to_nat batch_size - 1)
                               / Z.to_nat batch_size)%nat
                    then [Sleep delay] else []))
             (seq a m)).
Proof.
  intros Hb. revert a results trace.
  induction m as [ | m IH ]; intros a results trace Ham.
  - cbn. now rewrite !app_nil_r.
  - cbn [seq map for_in List.concat flat_map]. cbv zeta.
    rewrite (py_slice_batch points a batch_size Hb).
    rewrite (not_last_batch (List.length points) a batch_size Hb) by lia.
    cbn [fst snd].
    destruct (S a <? (List.length points + Z.to_nat batch_size - 1)
                     / Z.to_nat batch_size)%nat;
      cbn [bind]; rewrite IH by lia; rewrite map_app, <- !app_assoc; reflexivity.
Qed.

Lemma trace_interspersed (G : nat -> event) (pause : event) (total m a : nat) :
  (a + m = total)%nat ->
  flat_map (fun k => G k :: (if (S k <? total)%nat then [pause] else [])) (seq a m)
  = intersperse pause (map G (seq a m)).
Proof.
  revert a. induction m as [ | m IH ]; intros a Ham; [ reflexivity | ].
  cbn [seq flat_map map]. rewrite IH by lia.
  destruct m as [ | m ].
  - destruct (Nat.ltb_spec (S a) total); [ lia | reflexivity ].
  - destruct (Nat.ltb_spec (S a) total); [ reflexivity | lia ].
Qed.

Lemma process_grid_search_ok
    (points : list GridPoint) (business_name keyword : string)
    (api_key : option string) :
  effective_key settings api_key <> ""%string ->
  (0 < serp_batch_size settings)%Z ->
  process_grid_search settings fetch_rank_at_point points business_name keyword api_key
  = Ok (map (fun point =>
               fetch_rank_at_point point business_name keyword
                 (effective_key settings api_key)) points,
        intersperse (Sleep (serp_batch_delay_seconds settings))
          (map Gather (batches (Z.to_nat (serp_batch_size settings)) points))).
Proof.
  intros Hkey Hb.
  assert (Hs : (0 < Z.to_nat (serp_batch_size settings))%nat) by lia.
  unfold process_grid_search. cbv zeta.
  apply String.eqb_neq in Hkey. rewrite Hkey.
  rewrite (range_step_batches _ _ Hb). cbn [bind].
  rewrite search_loop by (assumption || reflexivity).
  cbn [app]. f_equal. f_equal.
  - fold (batches (Z.to_nat (serp_batch_size settings)) points).
    now rewrite concat_batches.
  - rewrite (trace_interspersed
               (fun k => Gather (firstn (Z.to_nat (serp_batch_size settings))
                                   (skipn (k * Z.to_nat (serp_batch_size settings))
                                          points))))
      by reflexivity.
    unfold batches. now rewrite map_map.
Qed.

(** X16. With a key and a positive batch size, [process_grid_search]
    returns one result per point, in the order of the points, and awaits
    the batches one after the other with one pause between two consecutive
    batches and none after the last; the batches are the consecutive slices
    of [serp_batch_size] points, of 1 to [serp_batch_size] points each, and
    together they are the points. *)
Theorem process_grid_search_batches
    (points : list GridPoint) (business_name keyword : string)
    (api_key : option string) :
  effective_key settings api_key <> ""%string ->
  (0 < serp_batch_size settings)%Z ->
  process_grid_search settings fetch_rank_at_point points business_name keyword api_key
  = Ok (map (fun point =>
               fetch_rank_at_point point business_name keyword
                 (effective_key settings api_key)) points,
        intersperse (Sleep (serp_batch_delay_seconds settings))
          (map Gather (batches (Z.to_nat (serp_batch_size settings)) points)))
  /\ List.concat (batches (Z.to_nat (serp_batch_size settings)) points) = points
  /\ Forall (fun b => (1 <= List.length b <= Z.to_nat (serp_batch_size settings))%nat)
            (batches (Z.to_nat (serp_batch_size settings)) points).
Proof.
  intros Hkey Hb.
  assert (Hs : (0 < Z.to_nat (serp_batch_size settings))%nat) by lia.
  split; [ now apply process_grid_search_ok | ].
  split; [ now apply concat_batches | now apply batches_sizes ].
Qed.

(** X17. [process_grid_search] without a usable batch: an absent or empty
    key, with an empty key in the settings, raises a [ValueError] before
    anything else; with a key, a batch size of 0 raises the [ValueError] of
    [range] even for an empty list of points, and a negative batch size
    returns no result at all and awaits nothing, whatever the points. *)
Theorem process_grid_search_refusals
    (points : list GridPoint) (business_name keyword : string)
    (api_key : option string) :
  (effective_key settings api_key = ""%string ->
   process_grid_search settings fetch_rank_at_point points business_name keyword api_key
   = Raise (ValueError "Scale SERP API key is required"))
  /\ (effective_key settings api_key <> ""%string ->
      serp_batch_size settings = 0%Z ->
      process_grid_search settings fetch_rank_at_point points business_name keyword
        api_key
      = Raise (ValueError "range() arg 3 must not be zero"))
  /\ (effective_key settings api_key <> ""%string ->
      (serp_batch_size settings < 0)%Z ->
      process_grid_search settings fetch_rank_at_point points business_name keyword
        api_key
      = Ok ([], [])).
Proof.
  unfold process_grid_search. cbv zeta.
  split; [ | split ].
  - intros ->. reflexivity.
  - intros Hkey Hb. apply String.eqb_neq in Hkey. rewrite Hkey, Hb. reflexivity.
  - intros Hkey Hb. apply String.eqb_neq in Hkey. rewrite Hkey.
    unfold range_step.
    assert (E0 : (serp_batch_size settings =? 0)%Z = false) by (apply Z.eqb_neq; lia).
    assert (E1 : (0 <? serp_batch_size settings)%Z = false) by (apply Z.ltb_ge; lia).
    rewrite E0, E1.
    assert (Ec : Z.to_nat ((0 - Z.of_nat (List.length points)
                            - serp_batch_size settings - 1)
                           / - serp_batch_size settings) = 0%nat).
    { assert (H : ((0 - Z.of_nat (List.length points)
                    - serp_batch_size settings - 1)
                   / - serp_batch_size settings < 1)%Z); [ | lia ].
      apply Z.div_lt_upper_bound; lia. }
    rewrite Ec. reflexivity.
Qed.
End GridSearchFacts.

Lemma process_grid_search_batches_witness :
  process_grid_search default_settings fetch_not_found
    (map (fun k => mkGridPoint k 0 0 0 (ponto_label 0 k)) (range 7))
    "Pizzaria Roma" "pizzaria" (Some "key"%string)
  = Ok (map (fun point =>
               fetch_not_found point "Pizzaria Roma" "pizzaria"
                 (effective_key default_settings (Some "key"%string)))
            (map (fun k => mkGridPoint k 0 0 0 (ponto_label 0 k)) (range 7)),
        intersperse (Sleep (serp_batch_delay_seconds default_settings))
          (map Gather
             (batches (Z.to_nat (serp_batch_size default_settings))
                (map (fun k => mkGridPoint k 0 0 0 (ponto_label 0 k)) (range 7)))))
  /\ List.concat
       (batches (Z.to_nat (serp_batch_size default_settings))
          (map (fun k => mkGridPoint k 0 0 0 (ponto_label 0 k)) (range 7)))
     = map (fun k => mkGridPoint k 0 0 0 (ponto_label 0 k)) (range 7)
  /\ Forall (fun b =>
               (1 <= List.length b <= Z.to_nat (serp_batch_size default_settings))%nat)
            (batches (Z.to_nat (serp_batch_size default_settings))
               (map (fun k => mkGridPoint k 0 0 0 (ponto_label 0 k)) (range 7))).
Proof.
  apply (process_grid_search_batches default_settings fetch_not_found).
  - discriminate.
  - reflexivity.
Defined.

(** Seven points with the default settings: a batch of five, a pause, a
    batch of two. *)
Example process_grid_search_trace :
  exists results,
    process_grid_search default_settings fetch_not_found
      (map (fun k => mkGridPoint k 0 0 0 (ponto_label 0 k)) (range 7))
      "Pizzaria Roma" "pizzaria" (Some "key"%string)
    = Ok (results,
          [ Gather (map (fun k => mkGridPoint k 0 0 0 (ponto_label 0 k)) (range 5));
            Sleep (1 # 2);
            Gather (map (fun k => mkGridPoint k 0 0 0 (ponto_label 0 k)) [5; 6]%Z) ])
    /\ List.length results = 7%nat.
Proof. eexists. split; reflexivity. Qed.

(** * From the grid to the statistics *)

Section Pipeline.
Context {PF : PyFloat}.
Variable settings : Settings.
Variable fetch_rank_at_point : GridPoint -> string -> string -> string -> RankResult.

Lemma calculate_average_rank_returns (ranks : list (option Z)) :
  exists a, calculate_average_rank ranks = Ok a.
Proof.
  destruct (present_ranks ranks) as [ | z zs ] eqn:E.
  - exists None. unfold calculate_average_rank.
    rewrite valid_ranks_present, E. reflexivity.
  - eexists. apply calculate_average_rank_present. congruence.
Qed.

(** X18. The search flow composes: for a valid grid, a key and a positive
    batch size, the ranks extracted from the results of
    [process_grid_search] on the points of [generate_geogrid] are one per
    point, in row-major order, [grid_size^2] in all; and
    [calculate_scan_stats] on them returns statistics with
    [0 <= top3 <= top10 <= total_points = grid_size^2]. *)
Theorem search_flow
    (center_lat center_lng radius_km : Q) (grid_size : Z)
    (business_name keyword : string) (api_key : option string) :
  valid_grid_size grid_size -> valid_radius radius_km ->
  ~ math_cos (math_radians center_lat) == 0 ->
  effective_key settings api_key <> ""%string ->
  (0 < serp_batch_size settings)%Z ->
  exists points results trace stats,
    generate_geogrid center_lat center_lng radius_km grid_size = Ok points
    /\ process_grid_search settings fetch_rank_at_point points business_name keyword
         api_key = Ok (results, trace)
    /\ Z.of_nat (List.length (extract_ranks_from_results results)) = (grid_size ^ 2)%Z
    /\ (forall r c, (0 <= r < grid_size)%Z -> (0 <= c < grid_size)%Z ->
          exists p result,
            nth_error points (Z.to_nat (r * grid_size + c)) = Some p
            /\ y p = r /\ x p = c
            /\ nth_error results (Z.to_nat (r * grid_size + c)) = Some result
            /\ result = fetch_rank_at_point p business_name keyword
                          (effective_key settings api_key)
            /\ nth_error (extract_ranks_from_results results)
                         (Z.to_nat (r * grid_size + c))
               = Some (rank_position result))
    /\ calculate_scan_stats (extract_ranks_from_results results) grid_size = Ok stats
    /\ (0 <= top3 stats <= top10 stats)%Z
    /\ (top10 stats <= total_points stats)%Z
    /\ total_points stats = (grid_size ^ 2)%Z.
Proof.
  intros Hg Hr Hc Hkey Hb.
  assert (Hn : (0 < grid_size)%Z)
    by (destruct (valid_grid_size_cases _ Hg) as [-> | [-> | ->]]; lia).
  set (points := flat_map
         (fun row => map (grid_point center_lat center_lng radius_km grid_size row)
                         (range grid_size))
         (range grid_size)).
  set (fetch := fun point =>
         fetch_rank_at_point point business_name keyword
           (effective_key settings api_key)).
  assert (Hlen : Z.of_nat (List.length (extract_ranks_from_results (map fetch points)))
                 = (grid_size ^ 2)%Z).
  { unfold extract_ranks_from_results. rewrite !length_map.
    unfold points. rewrite length_table by lia. symmetry. apply Z.pow_2_r. }
  destruct (calculate_average_rank_returns (extract_ranks_from_results (map fetch points)))
    as (a & Ha).
  exists points, (map fetch points). eexists. eexists.
  split; [ apply generate_geogrid_ok; auto using meters_per_degree_lng_nonzero | ].
  split; [ now apply process_grid_search_ok | ].
  split; [ exact Hlen | ].
  split.
  - intros r c Hrow Hcol.
    exists (grid_point center_lat center_lng radius_km grid_size r c).
    exists (fetch (grid_point center_lat center_lng radius_km grid_size r c)).
    assert (Hp : nth_error points (Z.to_nat (r * grid_size + c))
                 = Some (grid_point center_lat center_lng radius_km grid_size r c))
      by now apply nth_error_table.
    unfold extract_ranks_from_results.
    rewrite !nth_error_map, Hp. repeat split.
  - unfold calculate_scan_stats. rewrite Ha.
    rewrite (calculate_visibility_score_ok _ grid_size) by lia.
    cbn [bind]. split; [ reflexivity | ].
    cbn [top3 top10 total_points].
    split; [ apply count_top3_le_top10 | ].
    split; [ | symmetry; apply Z.pow_2_r ].
    rewrite <- Z.pow_2_r, <- Hlen. apply count_top10_le_length.
Qed.
End Pipeline.

Lemma search_flow_witness :
  exists points results trace stats,
    copacabana = Ok points
    /\ process_grid_search default_settings fetch_not_found points
         "Pizzaria Roma" "pizzaria" (Some "key"%string) = Ok (results, trace)
    /\ Z.of_nat (List.length (extract_ranks_from_results results)) = (3 ^ 2)%Z
    /\ (forall r c, (0 <= r < 3)%Z -> (0 <= c < 3)%Z ->
          exists p result,
            nth_error points (Z.to_nat (r * 3 + c)) = Some p
            /\ y p = r /\ x p = c
            /\ nth_error results (Z.to_nat (r * 3 + c)) = Some result
            /\ result = fetch_not_found p "Pizzaria Roma" "pizzaria"
                          (effective_key default_settings (Some "key"%string))
            /\ nth_error (extract_ranks_from_results results)
                         (Z.to_nat (r * 3 + c))
               = Some (rank_position result))
    /\ @calculate_scan_stats exact_float (extract_ranks_from_results results) 3
       = Ok stats
    /\ (0 <= top3 stats <= top10 stats)%Z
    /\ (top10 stats <= total_points stats)%Z
    /\ total_points stats = (3 ^ 2)%Z.
Proof.
  apply (@search_flow exact_float default_settings fetch_not_found
           (-229711 # 10000) (-431825 # 10000) 2 3).
  - left; reflexivity.
  - split; [ reflexivity | discriminate ].
  - intros H. vm_compute in H. discriminate H.
  - discriminate.
  - reflexivity.
Defined.
